(** * live-mood: the resilient inference caller of [backend/main.py]

    A shallow embedding of the model list builder [_parse_model_list] and of
    the retry loop of [_generate_affirmation], with the properties of the
    design document stated and settled against them.

    Python values are modelled as follows.
    - [str] is a list of Unicode code points, so that [str.strip] can be
      given its real whitespace set;
    - the value returned by [response.json()] is a [json] tree whose objects
      are finite maps ([dict]);
    - [set] is [gset];
    - exceptions are the constructors of [PyExc]; a computation that may
      raise has type [PyExc + A];
    - [requests.post], [time.sleep] and the environment are the only
      effects: the network is a function answering each call, and every
      call and every sleep is recorded in a trace of [event]s. Logging is
      left out. *)

From Stdlib Require Import ZArith NArith String Ascii.
From Stdlib Require Import Floats.SpecFloat.
From stdpp Require Import gmap strings list.

Set Warnings "-register-all,-clear-no-such-hyp".

(** ** Python strings *)

Abbreviation str := (list N).

(** An ASCII literal as a Python string. *)
Definition py (s : string) : str := N_of_ascii <$> list_ascii_of_string s.

(** [str.isspace] on one code point: CPython's [_PyUnicode_IsWhitespace]. *)
Definition isspace (c : N) : bool :=
  ((9 <=? c) && (c <=? 13) || (28 <=? c) && (c <=? 32)
   || (c =? 133) || (c =? 160) || (c =? 5760)
   || (8192 <=? c) && (c <=? 8202)
   || (c =? 8232) || (c =? 8233) || (c =? 8239) || (c =? 8287)
   || (c =? 12288))%N.

Fixpoint lstrip (s : str) : str :=
  match s with
  | c :: s' => if isspace c then lstrip s' else s
  | [] => []
  end.

Definition rstrip (s : str) : str := reverse (lstrip (reverse s)).

(** [s.strip()] *)
Definition strip (s : str) : str := rstrip (lstrip s).

(** [s.split(",")]: never empty, one more piece than there are commas. *)
Fixpoint split_comma (s : str) : list str :=
  match s with
  | [] => [[]]
  | c :: s' =>
      if (c =? 44)%N then [] :: split_comma s'
      else match split_comma s' with
           | piece :: pieces => (c :: piece) :: pieces
           | [] => [[c]]
           end
  end.

(** Truth value of a string: [bool(s)]. *)
Definition str_bool (s : str) : bool :=
  match s with [] => false | _ => true end.

(** ** Model list builder *)

(** The generator of line 36:
    [model.strip() for model in fallback_raw.split(",") if model.strip()]. *)
Definition fallback_entries (fallback_raw : str) : list str :=
  omap (λ model, if str_bool (strip model) then Some (strip model) else None)
       (split_comma fallback_raw).

(** Lines 38-43: the loop over [models], threading [seen] and [ordered]. *)
Fixpoint dedupe_loop (models : list str) (seen : gset str) (ordered : list str)
  : list str :=
  match models with
  | [] => ordered
  | model :: rest =>
      if decide (model ∉ seen)
      then dedupe_loop rest (seen ∪ {[model]}) (ordered ++ [model])
      else dedupe_loop rest seen ordered
  end.

(** [models] as it stands when line 37 is reached. *)
Definition models_before_dedupe (primary : str) (fallback_raw : option str)
  : list str :=
  [primary] ++
  match fallback_raw with
  | Some raw => if str_bool raw then fallback_entries raw else []
  | None => []
  end.

Definition _parse_model_list (primary : str) (fallback_raw : option str)
  : list str :=
  dedupe_loop (models_before_dedupe primary fallback_raw) ∅ [].


(** ** Values decoded from JSON *)

(** What [response.json()] returns: [None], [bool], [int], [float], [str],
    [list] or [dict] (whose keys are strings). *)
Inductive json :=
| JNull
| JBool (b : bool)
| JInt (z : Z)
| JFloat (f : spec_float)
| JStr (s : str)
| JList (l : list json)
| JDict (d : gmap str json).

(** Truth value of a decoded value, as [if v:] and [v or w] test it. *)
Definition truthy (v : json) : bool :=
  match v with
  | JNull => false
  | JBool b => b
  | JInt z => negb (z =? 0)%Z
  | JFloat (S754_zero _) => false
  | JFloat _ => true
  | JStr s => str_bool s
  | JList l => match l with [] => false | _ => true end
  | JDict d => negb (bool_decide (d = ∅))
  end.

(** [v or w] *)
Definition py_or (v w : json) : json := if truthy v then v else w.

(** ** Exceptions *)

(** [requests.Response], as far as the code looks at it: its status and what
    [response.json()] gives ([None] when the body is not JSON, in which case
    the call raises [JSONDecodeError]). *)
Record Response := { status_code : Z; json_body : option json }.

Inductive PyExc :=
| HTTPError (response : option Response)   (* requests.exceptions.HTTPError *)
| Timeout                                  (* requests.exceptions.Timeout *)
| ConnectionError                          (* requests.exceptions.ConnectionError *)
| JSONDecodeError                          (* requests.exceptions.JSONDecodeError *)
| RuntimeError (arg : json)
| ValueError (msg : str)
| AttributeError
| KeyError
| IndexError
| TypeError.

(** A computation that returns or raises. *)
Definition exc (A : Type) : Type := PyExc + A.

#[global] Instance exc_bind : MBind exc := λ A B k m,
  match m with
  | inl e => inl e
  | inr a => k a
  end.

(** [response.raise_for_status()] raises iff [400 <= status_code < 600]. *)
Definition is_error_status (r : Response) : bool :=
  ((400 <=? status_code r) && (status_code r <? 600))%Z.

Definition raise_for_status (r : Response) : exc unit :=
  if is_error_status r then inl (HTTPError (Some r)) else inr tt.

(** [Response.ok]: [raise_for_status] did not raise. *)
Definition Response_ok (r : Response) : bool :=
  match raise_for_status r with inl _ => false | inr _ => true end.

(** [Response.__bool__] returns [self.ok] in the [requests] library: a
    response whose status is an error status is false in a boolean context
    ([if response:], [x if response else y]). *)
Definition Response_bool (r : Response) : bool := Response_ok r.

(** [response.json()] *)
Definition Response_json (r : Response) : exc json :=
  match json_body r with
  | Some v => inr v
  | None => inl JSONDecodeError
  end.

(** ** Operations on decoded values used by the caller *)

(** [isinstance(v, dict)] *)
Definition is_dict (v : json) : bool :=
  match v with JDict _ => true | _ => false end.

(** [v.get(key)]: only a [dict] has [get]; a missing key gives [None]. *)
Definition py_get (v : json) (key : str) : exc json :=
  match v with
  | JDict d => inr (default JNull (d !! key))
  | _ => inl AttributeError
  end.

(** [v["error"]] for a [dict] [v]. *)
Definition py_getitem (v : json) (key : str) : exc json :=
  match v with
  | JDict d => match d !! key with Some x => inr x | None => inl KeyError end
  | _ => inl TypeError
  end.

(** [v[0]] *)
Definition py_getitem0 (v : json) : exc json :=
  match v with
  | JList (x :: _) => inr x
  | JList [] => inl IndexError
  | JStr (c :: _) => inr (JStr [c])
  | JStr [] => inl IndexError
  | JDict _ => inl KeyError
  | _ => inl TypeError
  end.

(** [v.strip()]: only a [str] has [strip]. *)
Definition py_strip (v : json) : exc str :=
  match v with
  | JStr s => inr (strip s)
  | _ => inl AttributeError
  end.

(** ** Inference caller: the body of the [try] block *)

(** Lines 183-197, from the decoded body to the returned text. *)
Definition parse_result (result : json) : exc str :=
  (* isinstance(result, dict) and result.get("error") *)
  has_error ← (if is_dict result
               then error ← py_get result (py "error"); inr (truthy error)
               else inr false);
  if (has_error : bool)
  then (error ← py_getitem result (py "error"); inl (RuntimeError error))
  else
    text ← (if is_dict result then
              got ← py_get result (py "choices");
              let choices := py_or got (JList []) in
              if truthy choices then
                first ← py_getitem0 choices;
                got ← py_get first (py "message");
                let message := py_or got (JDict ∅) in
                content ← py_get message (py "content");
                py_strip (py_or content (JStr []))
              else inr []
            else inr []);
    if negb (str_bool text)
    then inl (ValueError (py "Empty response from Hugging Face"))
    else inr text.

(** What [requests.post] does on one call. *)
Inductive post_outcome :=
| Returns (response : Response)
| Raises (e : PyExc).

(** Lines 162-197: one attempt, given what [requests.post] did. *)
Definition try_body (o : post_outcome) : exc str :=
  match o with
  | Raises e => inl e
  | Returns response =>
      _ ← raise_for_status response;
      result ← Response_json response;
      parse_result result
  end.


(** ** Retry orchestrator *)

(** What a run does to the outside world, in order. *)
Inductive event :=
| EvPost (model : str) (attempt : nat) (o : post_outcome)
| EvSleep (seconds : Z).

(** The network: what the [n]-th call of [requests.post] of the run does,
    given the model named in its payload. *)
Definition network : Type := nat → str → post_outcome.

(** Line 150. *)
Definition backoff_delays : list Z := [2; 4; 8]%Z.

(** How an [except] clause leaves the attempt. *)
Inductive handler_exit :=
| Propagate (e : PyExc)        (* an exception leaves the function *)
| Break                        (* [break]: on to the next model *)
| SleepContinue (wait : Z).    (* [time.sleep(wait)] then [continue] *)

(** Lines 211-216 and 221-226. *)
Definition backoff_or_break (attempt : nat) : handler_exit :=
  if bool_decide (attempt < 2)
  then match backoff_delays !! attempt with
       | Some wait_time => SleepContinue wait_time
       | None => Propagate IndexError
       end
  else Break.

(** Line 201: [err.response.status_code if err.response else None]. *)
Definition error_status_code (err_response : option Response) : option Z :=
  match err_response with
  | Some r => if Response_bool r then Some (status_code r) else None
  | None => None
  end.

(** [status_code in codes], where [status_code] may be [None]. *)
Definition status_in (status : option Z) (codes : gset Z) : bool :=
  match status with
  | Some c => bool_decide (c ∈ codes)
  | None => false
  end.

(** Lines 199-216: [except requests.exceptions.HTTPError as err]. *)
Definition except_HTTPError (err_response : option Response) (attempt : nat)
  : handler_exit :=
  let status := error_status_code err_response in
  if status_in status {[401; 403]}%Z then Propagate (HTTPError err_response)
  else if status_in status {[404; 410]}%Z then Break
  else backoff_or_break attempt.

(** Lines 218-226: [except Exception as err]. *)
Definition except_Exception (err : PyExc) (attempt : nat) : handler_exit :=
  backoff_or_break attempt.

(** The two [except] clauses, tried in order. *)
Definition on_failure (err : PyExc) (attempt : nat) : handler_exit :=
  match err with
  | HTTPError err_response => except_HTTPError err_response attempt
  | _ => except_Exception err attempt
  end.

(** How a loop is left. *)
Inductive flow :=
| Return (text : str)
| Raise (e : PyExc)
| Next.                        (* the loop ended, by [break] or by running out *)

(** A (partial) run: how control left, the variable [last_error], the
    number of calls of [requests.post] so far, and the events it added. *)
Record run := {
  outcome : flow;
  last_error : option PyExc;
  calls : nat;
  events : list event
}.

Definition add_event (ev : event) (r : run) : run :=
  {| outcome := outcome r; last_error := last_error r;
     calls := calls r; events := ev :: events r |}.

(** Lines 158-226: [for attempt in range(3)], on the attempts still to do. *)
Fixpoint attempts_loop (net : network) (model : str) (attempts : list nat)
    (last : option PyExc) (n : nat) : run :=
  match attempts with
  | [] => {| outcome := Next; last_error := last; calls := n; events := [] |}
  | attempt :: rest =>
      let o := net n model in
      add_event (EvPost model attempt o)
        match try_body o with
        | inr text =>
            {| outcome := Return text; last_error := last;
               calls := S n; events := [] |}
        | inl err =>
            match on_failure err attempt with
            | Propagate e =>
                {| outcome := Raise e; last_error := Some err;
                   calls := S n; events := [] |}
            | Break =>
                {| outcome := Next; last_error := Some err;
                   calls := S n; events := [] |}
            | SleepContinue wait_time =>
                add_event (EvSleep wait_time)
                  (attempts_loop net model rest (Some err) (S n))
            end
        end
  end.

(** [range(3)] *)
Definition range3 : list nat := seq 0 3.

(** Lines 153-226: [for model in models_to_try]. *)
Fixpoint models_loop (net : network) (models : list str)
    (last : option PyExc) (n : nat) : run :=
  match models with
  | [] => {| outcome := Next; last_error := last; calls := n; events := [] |}
  | model :: rest =>
      let r := attempts_loop net model range3 last n in
      match outcome r with
      | Next =>
          let r' := models_loop net rest (last_error r) (calls r) in
          {| outcome := outcome r'; last_error := last_error r';
             calls := calls r'; events := events r ++ events r' |}
      | _ => r
      end
  end.

(** Lines 228-230: [raise last_error or RuntimeError(...)]. *)
Definition exhausted_error : PyExc :=
  RuntimeError (JStr (py "AI request failed after all models attempted")).

Definition raise_last_error (r : run) : run :=
  match outcome r with
  | Next =>
      {| outcome := Raise (default exhausted_error (last_error r));
         last_error := last_error r; calls := calls r; events := events r |}
  | _ => r
  end.

(** Lines 149-230: the loops over a candidate list, then the final raise. *)
Definition orchestrate (net : network) (models_to_try : list str) : run :=
  raise_last_error (models_loop net models_to_try None 0).

(** The environment variables read by lines 136-144. *)
Record environ := {
  HUGGING_FACE_API_KEY : option str;
  HUGGING_FACE_MODEL : option str;
  HUGGING_FACE_FALLBACK_MODELS : option str
}.

Definition _generate_affirmation (env : environ) (net : network) : run :=
  let api_key := HUGGING_FACE_API_KEY env in
  if negb (from_option str_bool false api_key)
  then {| outcome := Raise (ValueError (py "HUGGING_FACE_API_KEY not set in environment"));
          last_error := None; calls := 0; events := [] |}
  else
    let primary_model :=
      default (py "meta-llama/Meta-Llama-3-8B-Instruct") (HUGGING_FACE_MODEL env) in
    let fallback_raw :=
      default (py "Qwen/Qwen2.5-7B-Instruct") (HUGGING_FACE_FALLBACK_MODELS env) in
    let models_to_try := _parse_model_list primary_model (Some fallback_raw) in
    orchestrate net models_to_try.

(** ** Vocabulary of the design document, defined on the code *)

(** The disposition of a failure: what the [except] clauses do with it when
    attempts remain. *)
Inductive FailureDisposition := ABORT | NEXT_MODEL | RETRY_WITH_BACKOFF.

Definition classify (err : PyExc) : FailureDisposition :=
  match on_failure err 0 with
  | Propagate _ => ABORT
  | Break => NEXT_MODEL
  | SleepContinue _ => RETRY_WITH_BACKOFF
  end.

(** A response with a 2xx status. *)
Definition is_2xx (r : Response) : Prop := (200 ≤ status_code r < 300)%Z.

(** Empty or made of whitespace only. *)
Definition whitespace_only (s : str) : Prop := Forall (λ c, isspace c = true) s.

(** [d.get(key)] on the map itself. *)
Definition dict_get (d : gmap str json) (key : string) : json :=
  default JNull (d !! py key).

(** The field [choices[0].message.content] of a decoded body, when the body
    has that shape and the field is a string. *)
Definition response_content (body : json) : option str :=
  match body with
  | JDict d =>
      match dict_get d "choices" with
      | JList (JDict first :: _) =>
          match dict_get first "message" with
          | JDict message =>
              match dict_get message "content" with
              | JStr s => Some s
              | _ => None
              end
          | _ => None
          end
      | _ => None
      end
  | _ => None
  end.

(** The body carries an [error] key. *)
Definition has_error_field (body : json) : Prop :=
  ∃ d, body = JDict d ∧ is_Some (d !! py "error").

(** The body carries an [error] key whose value is true in a boolean
    context: not [null], [false], a zero, or an empty string, list or
    object. *)
Definition has_truthy_error (body : json) : Prop :=
  ∃ d, body = JDict d ∧ truthy (dict_get d "error") = true.

(** The ways a decoded body can miss the expected shape without any value
    of a wrong type on the way: it is not an object; its [choices] is
    missing or false in a boolean context ([null], an empty list, ...);
    [choices] is a list whose first element is an object whose [message] is
    missing or false in a boolean context; that [message] is an object whose
    [content] is missing or false in a boolean context. A first choice or a
    [message] that is present but is no object is not among them. *)
Inductive malformed : json → Prop :=
| not_a_dict body :
    is_dict body = false → malformed body
| choices_missing d :
    truthy (dict_get d "choices") = false → malformed (JDict d)
| message_missing d first rest :
    dict_get d "choices" = JList (JDict first :: rest) →
    truthy (dict_get first "message") = false →
    malformed (JDict d)
| content_missing d first rest message :
    dict_get d "choices" = JList (JDict first :: rest) →
    dict_get first "message" = JDict message →
    truthy (dict_get message "content") = false →
    malformed (JDict d).

(** The attempt recorded by an event failed (a sleep is no attempt). *)
Definition failed_event (ev : event) : Prop :=
  match ev with
  | EvPost _ _ o => ∃ e, try_body o = inl e
  | EvSleep _ => True
  end.

(** The event is a call of [requests.post] for [model]. *)
Definition is_post_for (model : str) (ev : event) : Prop :=
  match ev with
  | EvPost m _ _ => m = model
  | EvSleep _ => False
  end.

#[global] Instance is_post_for_dec model ev : Decision (is_post_for model ev).
Proof. destruct ev; simpl; apply _. Defined.

(** Number of calls of [requests.post] for [model] in a trace. *)
Definition count_posts (model : str) (evs : list event) : nat :=
  length (filter (is_post_for model) evs).

(** The attempt index of a call is within the budget of three. *)
Definition attempt_in_budget (ev : event) : Prop :=
  match ev with
  | EvPost _ attempt _ => attempt < 3
  | EvSleep _ => True
  end.

(** How a finished loop relates to its trace: the trace ends with a call of
    [requests.post], every earlier attempt failed, and either that call gave
    the returned text, or its failure is [last_error] and is the one raised,
    if any is. *)
Definition ends_with_attempt (r : run) : Prop :=
  ∃ pre m k o,
    events r = pre ++ [EvPost m k o] ∧ Forall failed_event pre
    ∧ match try_body o with
      | inr text => outcome r = Return text
      | inl e => last_error r = Some e ∧ (outcome r = Next ∨ outcome r = Raise e)
      end.

(** The exception is caught by [except requests.exceptions.HTTPError]. *)
Definition is_http_error (e : PyExc) : bool :=
  match e with HTTPError _ => true | _ => false end.

(** ** Sample inputs *)

(** A body of the expected shape. *)
Definition chat_completion (content : string) : json :=
  JDict {[ py "choices" :=
             JList [JDict {[ py "message" :=
                               JDict {[ py "content" := JStr (py content) ]} ]}] ]}.

Definition error_body (message : string) : json :=
  JDict {[ py "error" := JStr (py message) ]}.

Definition http (status : Z) (body : json) : post_outcome :=
  Returns {| status_code := status; json_body := Some body |}.

(** An environment with a credential, a primary model and fallback models. *)
Definition env_of (primary fallback : string) : environ :=
  {| HUGGING_FACE_API_KEY := Some (py "hf_token");
     HUGGING_FACE_MODEL := Some (py primary);
     HUGGING_FACE_FALLBACK_MODELS := Some (py fallback) |}.

(** The endpoint rejects the credential. *)
Definition unauthorized_response : Response :=
  {| status_code := 401; json_body := Some (error_body "Invalid credentials") |}.

(** The endpoint does not host the model. *)
Definition not_hosted_response : Response :=
  {| status_code := 404; json_body := Some (error_body "Model not found") |}.

(** A 2xx body with an [error] key set to [null] next to a regular answer. *)
Definition null_error_body : json :=
  JDict {[ py "error" := JNull;
           py "choices" :=
             JList [JDict {[ py "message" :=
                               JDict {[ py "content" := JStr (py "Stay steady, Amina.") ]} ]}] ]}.

(** ** Allowed origins *)

(** Lines 27-30. *)
Definition _parse_allowed_origins (raw : option str) : list str :=
  match raw with
  | Some raw =>
      if negb (str_bool raw) then []
      else omap (λ origin, if str_bool (strip origin) then Some (strip origin) else None)
                (split_comma raw)
  | None => []
  end.

(** Line 49: [allow_origins=allowed_origins or ["*"]], given the value of the
    environment variable [ALLOWED_ORIGINS]. *)
Definition cors_allow_origins (ALLOWED_ORIGINS : option str) : list str :=
  let allowed_origins := _parse_allowed_origins ALLOWED_ORIGINS in
  match allowed_origins with
  | [] => [py "*"]
  | _ => allowed_origins
  end.

(** [",".join(l)] *)
Fixpoint join_comma (l : list str) : str :=
  match l with
  | [] => []
  | [x] => x
  | x :: rest => x ++ 44%N :: join_comma rest
  end.

(** An entry as a configuration would list it: not empty, no whitespace at
    either end, no comma. *)
Definition clean_entry (x : str) : Prop := x ≠ [] ∧ strip x = x ∧ 44%N ∉ x.

(** ** Traces *)

(** The calls of [requests.post] and the seconds slept in a trace. *)
Definition is_post (ev : event) : Prop :=
  match ev with EvPost _ _ _ => True | EvSleep _ => False end.

#[global] Instance is_post_dec ev : Decision (is_post ev).
Proof. destruct ev; simpl; apply _. Defined.

Definition post_count (evs : list event) : nat := length (filter is_post evs).

Fixpoint total_sleep (evs : list event) : Z :=
  match evs with
  | [] => 0
  | EvSleep seconds :: evs => seconds + total_sleep evs
  | EvPost _ _ _ :: evs => total_sleep evs
  end.

(** What the attempt loop can add to the trace for one model: up to three
    attempts, each one but the last failed, with sleeps of 2 and 4 seconds
    in between. *)
Inductive model_block (model : str) : list event → Prop :=
| block_one o0 :
    model_block model [EvPost model 0 o0]
| block_two o0 o1 :
    failed_event (EvPost model 0 o0) →
    model_block model [EvPost model 0 o0; EvSleep 2; EvPost model 1 o1]
| block_three o0 o1 o2 :
    failed_event (EvPost model 0 o0) → failed_event (EvPost model 1 o1) →
    model_block model [EvPost model 0 o0; EvSleep 2; EvPost model 1 o1;
                       EvSleep 4; EvPost model 2 o2].

(** The trace of a run in which every candidate uses its three attempts,
    the first call being the [n]-th of the run. *)
Fixpoint exhaustive_trace (net : network) (n : nat) (models : list str)
  : list event :=
  match models with
  | [] => []
  | model :: rest =>
      [EvPost model 0 (net n model); EvSleep 2;
       EvPost model 1 (net (S n) model); EvSleep 4;
       EvPost model 2 (net (S (S n)) model)]
      ++ exhaustive_trace net (3 + n) rest
  end.

(** ** The endpoint [POST /api/affirmation] *)

(** Lines 54-57: the request body. [Field(..., max_length=...)] bounds the
    length of each field before the handler runs. *)
Record RequestData := {
  name : str;
  feeling : str;
  details : option str
}.

Definition validated (data : RequestData) : Prop :=
  length (name data) ≤ 60 ∧ length (feeling data) ≤ 160
  ∧ length (default [] (details data)) ≤ 320.

(** Lines 76-82, given [datetime.now().hour]. *)
Definition time_of_day (hour : nat) : str :=
  if bool_decide (hour < 12) then py "morning"
  else if bool_decide (hour < 18) then py "afternoon"
  else py "evening".

(** Lines 96-101: the f-string of the user message. *)
Definition user_payload (name feeling details context : str) : str :=
  py "Name: " ++ name ++ 10%N :: py "Feeling: " ++ feeling
  ++ 10%N :: py "Details: " ++ details
  ++ 10%N :: py "Time of day: " ++ context.

(** The [detail] of an [HTTPException]. The debug text of line 121 is
    formatted from the exception, which is kept as it is. *)
Inductive error_detail :=
| NameAndFeelingRequired       (* "Name and feeling are required." *)
| TookTooLong                  (* "The affirmation took too long to generate. Please try again." *)
| TryAgainLater                (* "Could not generate affirmation. Please try again later." *)
| AIError (err : PyExc).       (* f"AI error: {type(err).__name__}: {err}" *)

(** What the handler answers. *)
Inductive endpoint_response :=
| Affirmation (affirmation : str)
| HTTPException (status : Z) (detail : error_detail).

(** [isinstance(err, TimeoutError)]: none of the classes of [PyExc] derives
    from the builtin [TimeoutError]; [requests.exceptions.Timeout] derives
    from [RequestException], an [IOError]. *)
Definition is_TimeoutError (err : PyExc) : bool :=
  match err with
  | HTTPError _ | Timeout | ConnectionError | JSONDecodeError => false
  | RuntimeError _ | ValueError _ => false
  | AttributeError | KeyError | IndexError | TypeError => false
  end.

(** Lines 67-125: the body of the handler, which runs on a request that
    passed the validation of [RequestData] (see [validated]; other requests
    are answered 422 before it runs). [hour] is [datetime.now().hour],
    [debug] the value of the test of line 118 on the environment variable
    [DEBUG]. The answer comes
    with the user message passed to [_generate_affirmation] (if it is
    reached) and the trace of the run. The texts of the two prompts are left
    out. *)
Definition generate_affirmation (data : RequestData) (hour : nat) (debug : bool)
    (env : environ) (net : network)
  : endpoint_response * option str * list event :=
  let name := strip (name data) in
  let feeling := strip (feeling data) in
  let details := strip (default [] (details data)) in
  if negb (str_bool name) || negb (str_bool feeling)
  then (HTTPException 400 NameAndFeelingRequired, None, [])
  else
    let context := time_of_day hour in
    let payload := user_payload name feeling details context in
    let r := _generate_affirmation env net in
    match outcome r with
    | Return affirmation => (Affirmation affirmation, Some payload, events r)
    | Raise err =>
        if is_TimeoutError err
        then (HTTPException 504 TookTooLong, Some payload, events r)
        else (HTTPException 502 (if debug then AIError err else TryAgainLater),
              Some payload, events r)
    | Next =>
        (* not reached: [_generate_affirmation] returns or raises *)
        (HTTPException 502 (if debug then AIError exhausted_error else TryAgainLater),
         Some payload, events r)
    end.

(** A 2xx body whose only choice is [null]. *)
Definition null_choice_body : json := JDict {[ py "choices" := JList [JNull] ]}.

(** A 2xx body whose [message] is a string. *)
Definition string_message_body : json :=
  JDict {[ py "choices" := JList [JDict {[ py "message" := JStr (py "hello") ]}] ]}.

(** * Properties *)

(** ** [str.strip] *)

Section strip.
Implicit Types s t : str.

Lemma whitespace_only_app s t :
  whitespace_only (s ++ t) ↔ whitespace_only s ∧ whitespace_only t.
Proof. apply Forall_app. Qed.

Lemma whitespace_only_reverse s :
  whitespace_only (reverse s) ↔ whitespace_only s.
Proof. unfold whitespace_only. by rewrite Forall_reverse. Qed.

(** [lstrip] drops a whitespace prefix and stops at the first code point
    that is not whitespace. *)
Lemma lstrip_spec s :
  ∃ ws, s = ws ++ lstrip s ∧ whitespace_only ws
        ∧ ∀ c, head (lstrip s) = Some c → isspace c = false.
Proof.
  induction s as [|c s (ws & Hs & Hws & Hhd)]; simpl.
  - exists []. split_and!; [done | constructor | done].
  - destruct (isspace c) eqn:Hc.
    + exists (c :: ws). split_and!; [by rewrite <- app_comm_cons, <- Hs | | done].
      by constructor.
    + exists []. split_and!; [done | constructor |].
      intros c' [= <-]. done.
Qed.

Lemma lstrip_nil s : lstrip s = [] ↔ whitespace_only s.
Proof.
  split.
  - intros Hnil. destruct (lstrip_spec s) as (ws & Hs & Hws & _).
    rewrite Hnil, app_nil_r in Hs. by subst.
  - induction 1 as [|c s Hc _ IH]; simpl; [done | by rewrite Hc].
Qed.

Lemma rstrip_spec t :
  ∃ ws, t = rstrip t ++ ws ∧ whitespace_only ws
        ∧ ∀ c, last (rstrip t) = Some c → isspace c = false.
Proof.
  destruct (lstrip_spec (reverse t)) as (ws & Ht & Hws & Hhd).
  exists (reverse ws). unfold rstrip. split_and!.
  - rewrite <- reverse_app, <- Ht. by rewrite reverse_involutive.
  - by apply whitespace_only_reverse.
  - intros c. rewrite last_reverse. apply Hhd.
Qed.

Lemma rstrip_nil t : rstrip t = [] ↔ whitespace_only t.
Proof.
  unfold rstrip. rewrite <- whitespace_only_reverse, <- lstrip_nil.
  split; [intros H; apply (f_equal reverse) in H;
          by rewrite reverse_involutive in H | by intros ->].
Qed.

(** [strip] removes whitespace at both ends and nothing else. *)
Lemma strip_spec s :
  ∃ l r, s = l ++ strip s ++ r ∧ whitespace_only l ∧ whitespace_only r
         ∧ (∀ c, head (strip s) = Some c → isspace c = false)
         ∧ (∀ c, last (strip s) = Some c → isspace c = false).
Proof.
  destruct (lstrip_spec s) as (l & Hs & Hl & Hhd).
  destruct (rstrip_spec (lstrip s)) as (r & Ht & Hr & Hlast).
  exists l, r. unfold strip. split_and!; [by rewrite <- Ht | done | done | | done].
  intros c Hc. apply Hhd. rewrite Ht.
  destruct (rstrip (lstrip s)); [done | by simplify_eq/=].
Qed.

Lemma strip_nil s : strip s = [] ↔ whitespace_only s.
Proof.
  unfold strip. rewrite rstrip_nil. split.
  - intros Hws. destruct (lstrip_spec s) as (l & Hs & Hl & _).
    rewrite Hs. by apply whitespace_only_app.
  - intros Hws. apply lstrip_nil in Hws. rewrite Hws. constructor.
Qed.

Lemma str_bool_true s : str_bool s = true ↔ s ≠ [].
Proof. by destruct s. Qed.
End strip.

(** ** Model list builder *)

Section dedupe.
Implicit Types (l models ordered : list str) (seen : gset str) (m : str).

Lemma dedupe_loop_prefix models seen ordered :
  ordered `prefix_of` dedupe_loop models seen ordered.
Proof.
  revert seen ordered. induction models as [|m models IH]; intros; simpl; [done|].
  case_decide; [|done].
  etrans; [|apply IH]. by apply prefix_app_r.
Qed.

Lemma parse_model_list_head primary fallback_raw :
  ∃ tl, _parse_model_list primary fallback_raw = primary :: tl.
Proof.
  unfold _parse_model_list, models_before_dedupe. simpl.
  case_decide; [|set_solver].
  destruct (dedupe_loop_prefix
              match fallback_raw with
              | Some raw => if str_bool raw then fallback_entries raw else []
              | None => []
              end (∅ ∪ {[primary]}) [primary]) as [tl ->].
  by exists tl.
Qed.

(** The loop appends an entry exactly when it has not been kept yet. *)
Lemma dedupe_loop_snoc l m seen ordered :
  (∀ x, x ∈ seen ↔ x ∈ ordered) →
  dedupe_loop (l ++ [m]) seen ordered =
    if decide (m ∈ dedupe_loop l seen ordered)
    then dedupe_loop l seen ordered
    else dedupe_loop l seen ordered ++ [m].
Proof.
  revert seen ordered. induction l as [|a l IH]; intros seen ordered Hseen; simpl.
  - repeat case_decide; naive_solver.
  - case_decide; apply IH; [|done].
    intros x. rewrite elem_of_union, elem_of_singleton, elem_of_app, list_elem_of_singleton.
    naive_solver.
Qed.

Lemma dedupe_snoc l m :
  dedupe_loop (l ++ [m]) ∅ [] =
    if decide (m ∈ dedupe_loop l ∅ [])
    then dedupe_loop l ∅ [] else dedupe_loop l ∅ [] ++ [m].
Proof. apply dedupe_loop_snoc. intros x. set_solver. Qed.

Lemma dedupe_elem_of l x : x ∈ dedupe_loop l ∅ [] ↔ x ∈ l.
Proof.
  induction l as [|m l IH] using rev_ind; [done|].
  rewrite dedupe_snoc. case_decide; set_solver.
Qed.

Lemma dedupe_NoDup l : NoDup (dedupe_loop l ∅ []).
Proof.
  induction l as [|m l IH] using rev_ind; [constructor|].
  rewrite dedupe_snoc. case_decide; [done|].
  apply NoDup_app. split_and!; [done | | apply NoDup_singleton].
  intros x Hx ->%list_elem_of_singleton. done.
Qed.

Lemma dedupe_sublist l : dedupe_loop l ∅ [] `sublist_of` l.
Proof.
  induction l as [|m l IH] using rev_ind; [done|].
  rewrite dedupe_snoc. case_decide.
  - by apply sublist_inserts_r.
  - by apply sublist_app.
Qed.

(** An entry kept before another one was first seen before every
    occurrence of that other one. *)
Lemma dedupe_first_seen l l1 x l2 y l3 :
  dedupe_loop l ∅ [] = l1 ++ x :: l2 ++ y :: l3 →
  ∃ p q, l = p ++ x :: q ∧ (x ∉ p) ∧ (y ∉ p).
Proof.
  revert l1 x l2 y l3.
  induction l as [|m l IH] using rev_ind; intros l1 x l2 y l3.
  - by destruct l1.
  - rewrite dedupe_snoc. case_decide as Hm.
    + intros (p & q & -> & ? & ?)%IH. exists p, (q ++ [m]).
      by rewrite <- app_assoc.
    + destruct l3 as [|z l3 _] using rev_ind.
      * rewrite !app_comm_cons, !app_assoc. intros [Hl <-]%app_inj_tail.
        assert (x ∈ l) as (p & q & -> & Hp)%list_elem_of_split_l.
        { apply dedupe_elem_of. rewrite Hl. set_solver. }
        exists p, (q ++ [m]). split_and!; [by rewrite <- app_assoc | done |].
        rewrite dedupe_elem_of in Hm. set_solver.
      * rewrite !app_comm_cons, !app_assoc. intros [Hl <-]%app_inj_tail.
        rewrite <- !app_assoc in Hl. simpl in Hl.
        apply IH in Hl as (p & q & -> & ? & ?). exists p, (q ++ [m]).
        by rewrite <- app_assoc.
Qed.

Lemma fallback_entries_spec raw :
  fallback_entries raw = filter (λ m, m ≠ []) (strip <$> split_comma raw).
Proof.
  unfold fallback_entries. induction (split_comma raw) as [|piece pieces IH]; [done|].
  rewrite fmap_cons, filter_cons, <- IH. simpl. by destruct (strip piece).
Qed.
End dedupe.

(** C5. For every primary identifier and every optional fallback string, the
    list built by [_parse_model_list] is non-empty, starts with the primary,
    has no duplicate, holds exactly the primary and the fallback entries
    (trimmed, empty ones discarded), in their order (it is a subsequence of
    primary-then-fallback), and an entry kept before another one was first
    seen before every occurrence of that other one: the first occurrence
    wins and later copies are dropped. Primary m1 with fallback m2,m1,m3
    gives m1, m2, m3. The primary need not even be non-empty. *)
Theorem parse_model_list_first_seen (primary : str) (fallback_raw : option str) :
  let models := models_before_dedupe primary fallback_raw in
  let ordered := _parse_model_list primary fallback_raw in
  ordered ≠ []
  ∧ head ordered = Some primary
  ∧ NoDup ordered
  ∧ models = primary :: from_option
               (λ raw, filter (λ m, m ≠ []) (strip <$> split_comma raw)) [] fallback_raw
  ∧ (∀ m, m ∈ ordered ↔ m ∈ models)
  ∧ ordered `sublist_of` models
  ∧ (∀ l1 x l2 y l3, ordered = l1 ++ x :: l2 ++ y :: l3 →
       ∃ p q, models = p ++ x :: q ∧ (x ∉ p) ∧ (y ∉ p))
  ∧ _parse_model_list (py "m1") (Some (py "m2,m1,m3")) = [py "m1"; py "m2"; py "m3"].
Proof.
  intros models ordered.
  destruct (parse_model_list_head primary fallback_raw) as [tl Htl].
  fold ordered in Htl. split_and!.
  - by rewrite Htl.
  - by rewrite Htl.
  - apply dedupe_NoDup.
  - unfold models, models_before_dedupe. simpl. f_equal.
    destruct fallback_raw as [raw|]; simpl; [|done].
    rewrite <- fallback_entries_spec. destruct raw; [|done]. by vm_compute.
  - intros m. apply dedupe_elem_of.
  - apply dedupe_sublist.
  - intros l1 x l2 y l3. apply dedupe_first_seen.
  - by vm_compute.
Qed.

(** ** Error handling of one attempt *)

Section handlers.
Implicit Types (err e : PyExc) (attempt k : nat) (r : Response).

(** A response that made [raise_for_status] raise is false in a boolean
    context, so line 201 reads no status code from it. *)
Lemma error_status_code_raised r :
  is_error_status r = true → error_status_code (Some r) = None.
Proof.
  intros Hr. unfold error_status_code, Response_bool, Response_ok, raise_for_status.
  by rewrite Hr.
Qed.

(** Line 201 never yields an error status. *)
Lemma error_status_code_not_error (resp : option Response) (c : Z) :
  error_status_code resp = Some c → ¬ (400 ≤ c < 600)%Z.
Proof.
  destruct resp as [r|]; [|done]. unfold error_status_code.
  destruct (Response_bool r) eqn:Hb; [|done]. intros [= <-].
  unfold Response_bool, Response_ok, raise_for_status, is_error_status in Hb.
  destruct (_ && _) eqn:Hs; [done|]. lia.
Qed.

Lemma backoff_or_break_cases k :
  (k < 2 ∧ ∃ w, backoff_or_break k = SleepContinue w ∧ backoff_delays !! k = Some w)
  ∨ (2 ≤ k ∧ backoff_or_break k = Break).
Proof.
  unfold backoff_or_break. case_bool_decide as Hk; [left | right; split; [lia | done]].
  split; [done|]. destruct k as [|[|k]]; [by exists 2%Z | by exists 4%Z | lia].
Qed.

(** An [except] clause re-raises the error it caught, leaves the attempt
    loop, or sleeps the scheduled delay; it sleeps only if an attempt is
    left. *)
Lemma on_failure_cases err k :
  on_failure err k = Propagate err
  ∨ on_failure err k = Break
  ∨ (k < 2 ∧ ∃ w, on_failure err k = SleepContinue w ∧ backoff_delays !! k = Some w).
Proof.
  assert (backoff_or_break k = Break
          ∨ (k < 2 ∧ ∃ w, backoff_or_break k = SleepContinue w
                           ∧ backoff_delays !! k = Some w)) as Hb.
  { destruct (backoff_or_break_cases k) as [?|[? ?]]; auto. }
  destruct err; simpl; unfold except_Exception; try tauto.
  unfold except_HTTPError. repeat case_match; tauto.
Qed.

(** A failure classified as retryable is handled by the backoff schedule
    at every attempt. *)
Lemma classify_retry err k :
  classify err = RETRY_WITH_BACKOFF → on_failure err k = backoff_or_break k.
Proof.
  unfold classify. destruct err; try done. simpl. unfold except_HTTPError.
  repeat case_match; done.
Qed.

(** The status read at line 201 is never 401, 403, 404 or 410, so every
    failure takes the backoff path. *)
Lemma on_failure_backoff err k : on_failure err k = backoff_or_break k.
Proof.
  destruct err as [resp| | | | | | | | |]; try done. simpl. unfold except_HTTPError.
  destruct (error_status_code resp) as [c|] eqn:Hc; [|done].
  apply error_status_code_not_error in Hc. simpl.
  repeat case_bool_decide; try done; set_solver by lia.
Qed.

Lemma classify_always_retry err : classify err = RETRY_WITH_BACKOFF.
Proof. unfold classify. by rewrite on_failure_backoff. Qed.
End handlers.

(** ** Shape of a run *)

Section runs.
Implicit Types (net : network) (model m : str) (last : option PyExc) (n : nat).

Lemma ends_with_attempt_add ev r :
  failed_event ev → ends_with_attempt r → ends_with_attempt (add_event ev r).
Proof.
  intros Hev (pre & m & k & o & Hevs & Hpre & Hout).
  exists (ev :: pre), m, k, o. simpl. rewrite Hevs. split_and!; [done | by constructor | done].
Qed.

Lemma attempts_loop_shape net model last n :
  ends_with_attempt (attempts_loop net model range3 last n).
Proof.
  assert (∀ k o r, events r = [] →
            match try_body o with
            | inr text => outcome r = Return text
            | inl e => last_error r = Some e ∧ (outcome r = Next ∨ outcome r = Raise e)
            end →
            ends_with_attempt (add_event (EvPost model k o) r)) as Hlast.
  { intros k o r Hr Ho. exists [], model, k, o. simpl. by rewrite Hr. }
  unfold range3. simpl.
  destruct (try_body (net n model)) as [e0|t0] eqn:H0;
    [|apply Hlast; [done | by rewrite H0]].
  destruct (on_failure_cases e0 0) as [->|[->|(_ & w0 & -> & _)]];
    [apply Hlast; [done | rewrite H0; auto].. |].
  apply ends_with_attempt_add; [by eexists|]. apply ends_with_attempt_add; [done|].
  destruct (try_body (net (S n) model)) as [e1|t1] eqn:H1;
    [|apply Hlast; [done | by rewrite H1]].
  destruct (on_failure_cases e1 1) as [->|[->|(_ & w1 & -> & _)]];
    [apply Hlast; [done | rewrite H1; auto].. |].
  apply ends_with_attempt_add; [by eexists|]. apply ends_with_attempt_add; [done|].
  destruct (try_body (net (S (S n)) model)) as [e2|t2] eqn:H2;
    [|apply Hlast; [done | by rewrite H2]].
  destruct (on_failure_cases e2 2) as [->|[->|(? & _)]];
    [apply Hlast; [done | rewrite H2; auto].. | lia].
Qed.

Lemma count_posts_post m model k o evs :
  count_posts m (EvPost model k o :: evs)
  = (if decide (model = m) then 1 else 0) + count_posts m evs.
Proof.
  unfold count_posts. rewrite filter_cons. simpl. by case_decide.
Qed.

Lemma count_posts_sleep m w evs :
  count_posts m (EvSleep w :: evs) = count_posts m evs.
Proof. done. Qed.

Lemma count_posts_app m evs evs' :
  count_posts m (evs ++ evs') = count_posts m evs + count_posts m evs'.
Proof. unfold count_posts. by rewrite filter_app, length_app. Qed.

(** The attempt loop calls [requests.post] once per attempt at most, and
    only for its own model. *)
Lemma attempts_loop_posts net model attempts last n :
  let r := attempts_loop net model attempts last n in
  (Forall (λ k, k < 3) attempts → Forall attempt_in_budget (events r))
  ∧ count_posts model (events r) ≤ length attempts
  ∧ ∀ m, m ≠ model → count_posts m (events r) = 0.
Proof.
  revert last n. induction attempts as [|k rest IH]; intros last n; simpl.
  { split_and!; [constructor | done | done]. }
  destruct (try_body (net n model)) as [err|text]; simpl.
  - destruct (on_failure err k) as [e| |w]; simpl.
    + rewrite count_posts_post, decide_True by done.
      split_and!; [intros [? _]%Forall_cons; by apply Forall_singleton
                 | change (count_posts model []) with 0; simpl; lia |].
      intros m Hm. by rewrite count_posts_post, decide_False.
    + rewrite count_posts_post, decide_True by done.
      split_and!; [intros [? _]%Forall_cons; by apply Forall_singleton
                 | change (count_posts model []) with 0; simpl; lia |].
      intros m Hm. by rewrite count_posts_post, decide_False.
    + destruct (IH (Some err) (S n)) as (Hb & Hc & Hz).
      rewrite count_posts_post, decide_True, count_posts_sleep by done.
      split_and!.
      * intros [? ?]%Forall_cons. apply Forall_cons; split; [done|].
        apply Forall_cons; split; [done | by apply Hb].
      * lia.
      * intros m Hm. rewrite count_posts_post, decide_False, count_posts_sleep by done.
        by apply Hz.
  - rewrite count_posts_post, decide_True by done.
    split_and!; [intros [? _]%Forall_cons; by apply Forall_singleton
                 | change (count_posts model []) with 0; simpl; lia |].
    intros m Hm. by rewrite count_posts_post, decide_False.
Qed.

(** One model costs at most three calls, all for that model, with attempt
    indices 0, 1, 2. *)
Lemma attempts_loop_budget net model last n :
  let r := attempts_loop net model range3 last n in
  Forall attempt_in_budget (events r)
  ∧ count_posts model (events r) ≤ 3
  ∧ ∀ m, m ≠ model → count_posts m (events r) = 0.
Proof.
  destruct (attempts_loop_posts net model range3 last n) as (Hb & Hc & Hz).
  split_and!; [|done..]. apply Hb. unfold range3. simpl. repeat constructor; lia.
Qed.

Lemma models_loop_cons net model rest last n :
  models_loop net (model :: rest) last n =
    let r := attempts_loop net model range3 last n in
    match outcome r with
    | Next =>
        let r' := models_loop net rest (last_error r) (calls r) in
        {| outcome := outcome r'; last_error := last_error r';
           calls := calls r'; events := events r ++ events r' |}
    | _ => r
    end.
Proof. done. Qed.

Lemma models_loop_shape net models last n :
  models ≠ [] → ends_with_attempt (models_loop net models last n).
Proof.
  revert last n. induction models as [|model rest IH]; intros last n Hne; [done|].
  rewrite models_loop_cons. cbv zeta.
  pose proof (attempts_loop_shape net model last n) as Hr.
  destruct (outcome (attempts_loop net model range3 last n)) eqn:Hout; [done..|].
  destruct Hr as (pre & m & k & o & Hevs & Hpre & Ho).
  assert (∃ e, try_body o = inl e) as He.
  { destruct (try_body o); [by eexists | congruence]. }
  destruct rest as [|model' rest].
  - exists pre, m, k, o. simpl. rewrite app_nil_r. split_and!; [done..|].
    destruct (try_body o); [|congruence]. naive_solver.
  - destruct (IH (last_error (attempts_loop net model range3 last n))
                 (calls (attempts_loop net model range3 last n)))
      as (pre' & m' & k' & o' & Hevs' & Hpre' & Ho'); [done|].
    exists ((pre ++ [EvPost m k o]) ++ pre'), m', k', o'.
    cbn [events outcome last_error]. rewrite Hevs, Hevs', !app_assoc.
    split_and!; [done | | done].
    repeat apply Forall_app_2; [done | by repeat constructor | done].
Qed.

Lemma models_loop_budget net models last n :
  NoDup models →
  let r := models_loop net models last n in
  Forall attempt_in_budget (events r)
  ∧ ∀ m, count_posts m (events r) ≤ 3 ∧ (m ∉ models → count_posts m (events r) = 0).
Proof.
  revert last n. induction models as [|model rest IH]; intros last n Hnd.
  { simpl. split; [apply Forall_nil_2 | intros m].
    change (count_posts m []) with 0. split; [lia | done]. }
  apply NoDup_cons in Hnd as [Hin Hnd]. rewrite models_loop_cons. cbv zeta.
  destruct (attempts_loop_budget net model last n) as (Hb & Hc & Hz).
  assert (∀ m, count_posts m (events (attempts_loop net model range3 last n)) ≤ 3
             ∧ (m ∉ model :: rest →
                count_posts m (events (attempts_loop net model range3 last n)) = 0))
  as Hfirst.
{ intros m. destruct (decide (m = model)) as [->|Hm]; [split; [done | set_solver]|].
  rewrite (Hz m Hm). split; [lia | done]. }
destruct (outcome (attempts_loop net model range3 last n)); [done..|].
  destruct (IH (last_error (attempts_loop net model range3 last n))
               (calls (attempts_loop net model range3 last n)) Hnd) as [Hb' Hc'].
  cbn [events]. split; [by apply Forall_app_2|].
  intros m. rewrite count_posts_app.
  destruct (Hc' m) as [Hle Hnone].
  destruct (decide (m = model)) as [->|Hm].
  - rewrite (Hnone Hin). split; [lia | set_solver].
  - rewrite (Hz m Hm). split; [lia|]. intros Hnot. apply Hnone. set_solver.
Qed.

(** The final raise changes neither the trace nor a result already
    reached. *)
Lemma raise_last_error_events r : events (raise_last_error r) = events r.
Proof. unfold raise_last_error. by destruct (outcome r). Qed.

Lemma raise_last_error_Return r text :
  outcome (raise_last_error r) = Return text ↔ outcome r = Return text.
Proof.
  unfold raise_last_error. destruct (outcome r) eqn:Hout; simpl; by rewrite ?Hout.
Qed.

(** In a trace that ends with an attempt, a successful attempt is that
    last one. *)
Lemma success_is_last r pre m k o post text :
  ends_with_attempt r →
  events r = pre ++ EvPost m k o :: post → try_body o = inr text →
  post = [] ∧ outcome r = Return text.
Proof.
  intros (pre' & m' & k' & o' & Hevs & Hpre & Ho) Hsplit Hok.
  rewrite Hevs in Hsplit.
  destruct post as [|ev post _] using rev_ind.
  - apply app_inj_tail in Hsplit as [_ [= -> -> ->]].
    by rewrite Hok in Ho.
  - rewrite app_comm_cons, app_assoc in Hsplit.
    apply app_inj_tail in Hsplit as [-> _].
    apply Forall_app in Hpre as [_ Hpre]. apply Forall_cons in Hpre as [[e He] _].
    congruence.
Qed.
End runs.

(** ** Parsing of a response *)

Section parsing.
Implicit Types (body : json) (r : Response) (text s : str).

(** What the lines after [response.json()] make of a decoded body: a text
    only if the body has the expected shape, and then that text is the
    trimmed content, which is not empty; otherwise an exception other than
    [HTTPError]. *)
Lemma parse_result_cases body :
  match parse_result body with
  | inr text =>
      ∃ s, response_content body = Some s ∧ text = strip s ∧ text ≠ []
  | inl e => is_http_error e = false
  end.
Proof.
  unfold parse_result, response_content, dict_get, py_get, py_getitem,
    py_getitem0, py_strip, py_or, mbind, exc_bind.
  destruct body as [| | | | |l|d]; try done. simpl is_dict. cbv iota beta.
  destruct (truthy (default JNull (d !! py "error"))); simpl.
  { by destruct (d !! py "error"). }
  destruct (default JNull (d !! py "choices")) as [| |z|fl|cs|[|first l]|dc] eqn:Hc;
    simpl; try done.
  - destruct b; simpl; done.
  - destruct (z =? 0)%Z eqn:Hz; simpl; rewrite ?Hz; simpl; done.
  - destruct fl; simpl; done.
  - destruct cs; simpl; done.
  - destruct first as [| | | | | |f]; try done.
    destruct (default JNull (f !! py "message")) as [|b|z|fl|ms|lm|m] eqn:Hm;
      simpl; rewrite ?lookup_empty; simpl; try done.
    + destruct b; simpl; rewrite ?lookup_empty; simpl; done.
    + destruct (z =? 0)%Z eqn:Hz; simpl; rewrite ?Hz; simpl; rewrite ?lookup_empty; simpl; done.
    + destruct fl; simpl; rewrite ?lookup_empty; simpl; done.
    + destruct ms; simpl; rewrite ?lookup_empty; simpl; done.
    + destruct lm; simpl; rewrite ?lookup_empty; simpl; done.
    + destruct (bool_decide (m = ∅)) eqn:Hempty; simpl.
      { by rewrite lookup_empty. }
      destruct (default JNull (m !! py "content")) as [|b|z|fl|s|lc|dc] eqn:Hs;
        simpl; try done.
      * destruct b; simpl; done.
      * destruct (z =? 0)%Z eqn:Hz; simpl; rewrite ?Hz; simpl; done.
      * destruct fl; simpl; done.
      * destruct s as [|c s]; [done|]. simpl str_bool. cbv iota.
        destruct (strip (c :: s)) eqn:Hstrip; simpl; [done|].
        eexists. split_and!; [done | done | done].
      * destruct lc; simpl; done.
      * destruct (bool_decide (dc = ∅)) eqn:Hdc; simpl; rewrite ?Hdc; simpl; done.
  - destruct (bool_decide (dc = ∅)) eqn:Hdc; simpl; rewrite ?Hdc; simpl; done.
Qed.

Lemma try_body_2xx r :
  is_2xx r →
  try_body (Returns r) = (result ← Response_json r; parse_result result).
Proof.
  intros [Hlo Hhi]. unfold try_body, raise_for_status, is_error_status.
  replace (400 <=? status_code r)%Z with false by (symmetry; apply Z.leb_gt; lia).
  done.
Qed.

(** An attempt returns a text only from a response of the expected shape. *)
Lemma try_body_success o text :
  try_body o = inr text →
  ∃ r body s,
    o = Returns r ∧ json_body r = Some body ∧ response_content body = Some s
    ∧ text = strip s ∧ text ≠ [].
Proof.
  destruct o as [r|e]; [|done]. unfold try_body, raise_for_status, Response_json.
  destruct (is_error_status r); [done|].
  destruct (json_body r) as [body|] eqn:Hbody; [|done].
  unfold mbind, exc_bind. pose proof (parse_result_cases body) as Hp.
  intros Hok. rewrite Hok in Hp. destruct Hp as (s & ? & ? & ?).
  by exists r, body, s.
Qed.

(** A 2xx response either yields a text or fails with an exception that
    the generic [except Exception] clause handles. *)
Lemma try_body_2xx_failure r e :
  is_2xx r → try_body (Returns r) = inl e → is_http_error e = false.
Proof.
  intros H2 He. rewrite try_body_2xx in He by done.
  unfold Response_json, mbind, exc_bind in He.
  destruct (json_body r) as [body|]; [|by simplify_eq].
  pose proof (parse_result_cases body) as Hp. by rewrite He in Hp.
Qed.

Lemma not_http_error_retry e :
  is_http_error e = false →
  classify e = RETRY_WITH_BACKOFF ∧ ∀ k, on_failure e k = backoff_or_break k.
Proof. by destruct e. Qed.
End parsing.

(** ** The claims about failures *)

(** C1. Evaluation at the failing input: a response with status 401 or 403
    makes [raise_for_status] raise an [HTTPError] that carries the response,
    but line 201 tests the truth value of that response, which is false for
    an error status, so no status code is read and the failure is handled by
    the backoff schedule. With models m1 and m2 and an endpoint that answers
    401 to every call, the run calls the endpoint six times and sleeps four
    times before it raises; it does not stop at the first 401. *)
Theorem unauthorized_is_retried :
  (∀ r k, status_code r = 401%Z ∨ status_code r = 403%Z →
     try_body (Returns r) = inl (HTTPError (Some r))
     ∧ error_status_code (Some r) = None
     ∧ on_failure (HTTPError (Some r)) k = backoff_or_break k)
  ∧ _generate_affirmation (env_of "m1" "m2") (λ _ _, Returns unauthorized_response)
    = {| outcome := Raise (HTTPError (Some unauthorized_response));
         last_error := Some (HTTPError (Some unauthorized_response));
         calls := 6;
         events := [EvPost (py "m1") 0 (Returns unauthorized_response); EvSleep 2;
                    EvPost (py "m1") 1 (Returns unauthorized_response); EvSleep 4;
                    EvPost (py "m1") 2 (Returns unauthorized_response);
                    EvPost (py "m2") 0 (Returns unauthorized_response); EvSleep 2;
                    EvPost (py "m2") 1 (Returns unauthorized_response); EvSleep 4;
                    EvPost (py "m2") 2 (Returns unauthorized_response)] |}.
Proof.
  split; [|by vm_compute].
  intros r k Hr.
  assert (is_error_status r = true) as Herr.
  { unfold is_error_status. destruct Hr as [-> | ->]; done. }
  split_and!.
  - unfold try_body, raise_for_status. by rewrite Herr.
  - by apply error_status_code_raised.
  - simpl. unfold except_HTTPError. by rewrite error_status_code_raised.
Qed.

(** C2. Evaluation at the failing input: a response with status 404 or 410
    is handled by the backoff schedule as well, for the same reason. With
    models A and B and an endpoint that answers 404 to the first call and a
    regular answer afterwards, the run sleeps two seconds and calls model A
    again; model B is never called. *)
Theorem not_hosted_is_retried :
  (∀ r k, status_code r = 404%Z ∨ status_code r = 410%Z →
     try_body (Returns r) = inl (HTTPError (Some r))
     ∧ error_status_code (Some r) = None
     ∧ on_failure (HTTPError (Some r)) k = backoff_or_break k)
  ∧ let net : network := λ n _,
      match n with
      | 0 => Returns not_hosted_response
      | _ => http 200 (chat_completion "Stay steady, Amina.")
      end in
    _generate_affirmation (env_of "A" "B") net
    = {| outcome := Return (py "Stay steady, Amina.");
         last_error := Some (HTTPError (Some not_hosted_response));
         calls := 2;
         events := [EvPost (py "A") 0 (Returns not_hosted_response); EvSleep 2;
                    EvPost (py "A") 1 (http 200 (chat_completion "Stay steady, Amina."))] |}.
Proof.
  split; [|by vm_compute].
  intros r k Hr.
  assert (is_error_status r = true) as Herr.
  { unfold is_error_status. destruct Hr as [-> | ->]; done. }
  split_and!.
  - unfold try_body, raise_for_status. by rewrite Herr.
  - by apply error_status_code_raised.
  - simpl. unfold except_HTTPError. by rewrite error_status_code_raised.
Qed.

(** C3. With a single candidate model whose three attempts all fail with
    failures classified as retryable, the run is: attempt 0, a sleep of 2
    seconds, attempt 1, a sleep of 4 seconds, attempt 2, and then the last
    failure is raised: exactly two waits, none after the third attempt. *)
Theorem three_transient_failures_two_waits
    (net : network) (model : str) (e0 e1 e2 : PyExc) :
  try_body (net 0 model) = inl e0 → classify e0 = RETRY_WITH_BACKOFF →
  try_body (net 1 model) = inl e1 → classify e1 = RETRY_WITH_BACKOFF →
  try_body (net 2 model) = inl e2 → classify e2 = RETRY_WITH_BACKOFF →
  orchestrate net [model]
  = {| outcome := Raise e2; last_error := Some e2; calls := 3;
       events := [EvPost model 0 (net 0 model); EvSleep 2;
                  EvPost model 1 (net 1 model); EvSleep 4;
                  EvPost model 2 (net 2 model)] |}.
Proof.
  intros H0 C0 H1 C1 H2 C2.
  unfold orchestrate, models_loop, range3. simpl.
  rewrite H0, (classify_retry e0 0 C0). simpl.
  rewrite H1, (classify_retry e1 1 C1). simpl.
  rewrite H2, (classify_retry e2 2 C2). done.
Qed.

(** C3 at three timeouts on the only model m1. *)
Lemma three_timeouts_two_waits :
  orchestrate (λ _ _, Raises Timeout) [py "m1"]
  = {| outcome := Raise Timeout; last_error := Some Timeout; calls := 3;
       events := [EvPost (py "m1") 0 (Raises Timeout); EvSleep 2;
                  EvPost (py "m1") 1 (Raises Timeout); EvSleep 4;
                  EvPost (py "m1") 2 (Raises Timeout)] |}.
Proof.
  apply (three_transient_failures_two_waits (λ _ _, Raises Timeout) (py "m1")
           Timeout Timeout Timeout); reflexivity.
Defined.

(** C10. An [HTTPError] without a response object gives no status code, so
    it is never re-raised (401/403) and never skips to the next model
    (404/410): at attempts 0 and 1 the loop sleeps 2 and 4 seconds and
    retries, at attempt 2 it moves on to the next model. *)
Theorem http_error_without_response_is_transient :
  error_status_code None = None
  ∧ classify (HTTPError None) = RETRY_WITH_BACKOFF
  ∧ (∀ k, on_failure (HTTPError None) k = backoff_or_break k)
  ∧ on_failure (HTTPError None) 0 = SleepContinue 2
  ∧ on_failure (HTTPError None) 1 = SleepContinue 4
  ∧ on_failure (HTTPError None) 2 = Break
  ∧ orchestrate (λ _ _, Raises (HTTPError None)) [py "m1"; py "m2"]
    = {| outcome := Raise (HTTPError None); last_error := Some (HTTPError None);
         calls := 6;
         events := [EvPost (py "m1") 0 (Raises (HTTPError None)); EvSleep 2;
                    EvPost (py "m1") 1 (Raises (HTTPError None)); EvSleep 4;
                    EvPost (py "m1") 2 (Raises (HTTPError None));
                    EvPost (py "m2") 0 (Raises (HTTPError None)); EvSleep 2;
                    EvPost (py "m2") 1 (Raises (HTTPError None)); EvSleep 4;
                    EvPost (py "m2") 2 (Raises (HTTPError None))] |}.
Proof. split_and!; by vm_compute. Qed.

(** C8, as stated, fails: a 2xx body that carries an [error] key whose value
    is [null] next to a regular answer is returned as a success. *)
Lemma null_error_field_is_success :
  is_2xx {| status_code := 200; json_body := Some null_error_body |}
  ∧ has_error_field null_error_body
  ∧ try_body (http 200 null_error_body) = inr (py "Stay steady, Amina.").
Proof.
  split_and!; [unfold is_2xx; simpl; lia | | by vm_compute].
  eexists. split; [done|]. exists JNull. by vm_compute.
Qed.

(** C8, amended. For every 2xx response whose decoded body is an object with
    an [error] field that is true in a boolean context, the attempt fails
    with a [RuntimeError] carrying that field; the failure is classified as
    retryable and handled by the backoff schedule, and no text is
    returned. *)
Theorem truthy_error_field_is_failure (r : Response) (d : gmap str json) :
  is_2xx r → json_body r = Some (JDict d) → has_truthy_error (JDict d) →
  ∃ v, d !! py "error" = Some v
       ∧ try_body (Returns r) = inl (RuntimeError v)
       ∧ classify (RuntimeError v) = RETRY_WITH_BACKOFF
       ∧ ∀ k, on_failure (RuntimeError v) k = backoff_or_break k.
Proof.
  intros H2 Hbody (d' & [= <-] & Herr). unfold dict_get in Herr.
  destruct (d !! py "error") as [v|] eqn:Hv; [|done]. exists v.
  split_and!; [done | | done | done].
  rewrite try_body_2xx by done. unfold Response_json. rewrite Hbody.
  unfold mbind, exc_bind, parse_result, py_get, py_getitem. simpl is_dict. cbv iota.
  unfold mbind, exc_bind. rewrite Hv. simpl in Herr |- *. by rewrite Herr.
Qed.

(** C8, amended, at the body [{"error": "Model is overloaded"}]. *)
Lemma error_message_is_failure :
  ∃ v, ({[ py "error" := JStr (py "Model is overloaded") ]} : gmap str json) !! py "error"
       = Some v
       ∧ try_body (http 200 (error_body "Model is overloaded")) = inl (RuntimeError v)
       ∧ classify (RuntimeError v) = RETRY_WITH_BACKOFF
       ∧ ∀ k, on_failure (RuntimeError v) k = backoff_or_break k.
Proof.
  apply (truthy_error_field_is_failure
           {| status_code := 200; json_body := Some (error_body "Model is overloaded") |}
           {[ py "error" := JStr (py "Model is overloaded") ]}).
  - unfold is_2xx; simpl; lia.
  - reflexivity.
  - eexists. split; [reflexivity | by vm_compute].
Defined.

(** C9, as stated, fails on three bodies of 2xx responses. A body with an
    [error] message has no [choices], yet the attempt fails with a
    [RuntimeError] carrying the message, not with the empty-response
    failure. A body whose only choice is [null] has no [message], and a body
    whose [message] is a string has no [content]: on both, line 190 or 191
    raises an [AttributeError]. *)
Lemma malformed_bodies_with_other_failures :
  malformed (error_body "Model is overloaded")
  ∧ try_body (http 200 (error_body "Model is overloaded"))
    = inl (RuntimeError (JStr (py "Model is overloaded")))
  ∧ response_content null_choice_body = None
  ∧ try_body (http 200 null_choice_body) = inl AttributeError
  ∧ response_content string_message_body = None
  ∧ try_body (http 200 string_message_body) = inl AttributeError.
Proof.
  split_and!; [| by vm_compute..].
  apply choices_missing. by vm_compute.
Qed.

(** C9, amended. For every 2xx response with a decoded body: (a) an attempt
    that fails does so with an exception other than [HTTPError], raised
    inside the [try] block, which is classified as retryable and handled by
    the backoff schedule; (b) when the body carries no [error] field that is
    true in a boolean context and is not an object, or its [choices] is
    missing or false in a boolean context, or the first element of [choices]
    is an object whose [message] is missing or false in a boolean context,
    or that [message] is an object whose [content] is missing or false in a
    boolean context, the attempt raises no indexing, attribute or type
    error: it fails with the empty-response [ValueError]. *)
Theorem malformed_body_is_empty_response (r : Response) (body : json) :
  is_2xx r → json_body r = Some body →
  (∀ e, try_body (Returns r) = inl e →
        is_http_error e = false
        ∧ classify e = RETRY_WITH_BACKOFF
        ∧ ∀ k, on_failure e k = backoff_or_break k)
  ∧ (malformed body → ¬ has_truthy_error body →
     try_body (Returns r) = inl (ValueError (py "Empty response from Hugging Face"))).
Proof.
  intros H2 Hbody. split.
  { intros e He. pose proof (try_body_2xx_failure r e H2 He) as Hnot.
    by destruct (not_http_error_retry e Hnot). }
  intros Hmal Hnoerr.
  rewrite try_body_2xx by done. unfold Response_json. rewrite Hbody.
  unfold mbind, exc_bind at 1.
  assert (∀ d, body = JDict d → truthy (default JNull (d !! py "error")) = false) as Herr.
  { intros d ->. destruct (truthy _) eqn:Ht; [|done].
    destruct Hnoerr. by exists d. }
  unfold parse_result, py_get, py_getitem0, py_strip, py_or, mbind, exc_bind.
  destruct Hmal as [body Hnd|d Hc|d first rest Hc Hm|d first rest message Hc Hm Hs];
    unfold dict_get in *.
  - by rewrite Hnd.
  - simpl is_dict. cbv iota beta. by rewrite (Herr d eq_refl), Hc.
  - simpl is_dict. cbv iota beta. rewrite (Herr d eq_refl), Hc. simpl.
    rewrite Hm. simpl. by rewrite lookup_empty.
  - simpl is_dict. cbv iota beta. rewrite (Herr d eq_refl), Hc. simpl.
    rewrite Hm. destruct (truthy (JDict message)) eqn:Ht; simpl.
    + by rewrite Hs.
    + by rewrite lookup_empty.
Qed.

(** C9, amended, at the body [{"choices": []}]. *)
Lemma empty_choices_is_empty_response :
  (∀ e, try_body (http 200 (JDict {[ py "choices" := JList [] ]})) = inl e →
        is_http_error e = false
        ∧ classify e = RETRY_WITH_BACKOFF
        ∧ ∀ k, on_failure e k = backoff_or_break k)
  ∧ try_body (http 200 (JDict {[ py "choices" := JList [] ]}))
    = inl (ValueError (py "Empty response from Hugging Face")).
Proof.
  assert (is_2xx {| status_code := 200;
                    json_body := Some (JDict {[ py "choices" := JList [] ]}) |}) as H2.
  { unfold is_2xx; simpl; lia. }
  split.
  - apply (proj1 (malformed_body_is_empty_response
                    {| status_code := 200;
                       json_body := Some (JDict {[ py "choices" := JList [] ]}) |}
                    (JDict {[ py "choices" := JList [] ]}) H2 eq_refl)).
  - apply (proj2 (malformed_body_is_empty_response
                    {| status_code := 200;
                       json_body := Some (JDict {[ py "choices" := JList [] ]}) |}
                    (JDict {[ py "choices" := JList [] ]}) H2 eq_refl)).
    + apply choices_missing. by vm_compute.
    + intros (d & [= <-] & Herr). by vm_compute in Herr.
Defined.

(** ** The claims about successful attempts and whole runs *)

(** C4. (1) A 2xx response whose [choices[0].message.content] is missing
    (also when the body is not JSON or has another shape), empty or made of
    whitespace only yields no text: the attempt fails with an exception that
    the generic [except] clause handles like any failed call, by the backoff
    schedule. (2) Whenever an attempt returns a text, the response has that
    field, and the text is its content with the whitespace at both ends
    removed, which is not empty. (3) Whenever a run returns a text, it is
    the text of its last call, obtained in that way. *)
Theorem empty_content_is_failure :
  (∀ r, is_2xx r →
        from_option whitespace_only True (json_body r ≫= response_content) →
        ∃ e, try_body (Returns r) = inl e
             ∧ is_http_error e = false
             ∧ classify e = RETRY_WITH_BACKOFF
             ∧ ∀ k, on_failure e k = backoff_or_break k)
  ∧ (∀ o text, try_body o = inr text →
        ∃ r s, o = Returns r
               ∧ json_body r ≫= response_content = Some s
               ∧ text = strip s ∧ text ≠ [] ∧ ¬ whitespace_only s
               ∧ (∀ c, head text = Some c → isspace c = false)
               ∧ (∀ c, last text = Some c → isspace c = false))
  ∧ (∀ net models text, outcome (orchestrate net models) = Return text →
        ∃ pre m k r s,
          events (orchestrate net models) = pre ++ [EvPost m k (Returns r)]
          ∧ json_body r ≫= response_content = Some s
          ∧ text = strip s ∧ text ≠ [] ∧ ¬ whitespace_only text).
Proof.
  assert (∀ o text, try_body o = inr text →
            ∃ r s, o = Returns r
                   ∧ json_body r ≫= response_content = Some s
                   ∧ text = strip s ∧ text ≠ [] ∧ ¬ whitespace_only s
                   ∧ (∀ c, head text = Some c → isspace c = false)
                   ∧ (∀ c, last text = Some c → isspace c = false)) as Hsuccess.
  { intros o text (r & body & s & -> & Hbody & Hcontent & -> & Hne)%try_body_success.
    exists r, s. destruct (strip_spec s) as (l & t & _ & _ & _ & Hhd & Hlast).
    split_and!; [done | by rewrite Hbody | done | done | | done | done].
    by intros ?%strip_nil. }
  split_and!; [|done|].
  - intros r H2 Hws. destruct (try_body (Returns r)) as [e|text] eqn:Htry.
    + exists e. pose proof (try_body_2xx_failure r e H2 Htry) as He.
      destruct (not_http_error_retry e He). done.
    + apply Hsuccess in Htry as (r' & s & [= <-] & Hs & _ & _ & Hnws & _).
      rewrite Hs in Hws. done.
  - intros net models text Hret. unfold orchestrate in *.
    rewrite raise_last_error_events. rewrite raise_last_error_Return in Hret.
    destruct models as [|model rest]; [done|].
    destruct (models_loop_shape net (model :: rest) None 0)
      as (pre & m & k & o & Hevs & _ & Ho); [done|].
    destruct (try_body o) as [e|text'] eqn:Htry.
    { destruct Ho as [_ [Ho|Ho]]; congruence. }
    assert (text' = text) as -> by congruence.
    destruct (Hsuccess o text Htry) as (r & s & -> & Hs & -> & Hne & _ & Hhd & _).
    exists pre, m, k, r, s. split_and!; [done..|].
    intros Hws. destruct (strip s) as [|c t]; [done|].
    apply Forall_cons in Hws as [Hc _]. by rewrite (Hhd c) in Hc.
Qed.

(** C4 at a regular body whose content is three spaces. *)
Lemma whitespace_content_is_failure :
  ∃ e, try_body (http 200 (chat_completion "   ")) = inl e
       ∧ is_http_error e = false
       ∧ classify e = RETRY_WITH_BACKOFF
       ∧ ∀ k, on_failure e k = backoff_or_break k.
Proof.
  apply (proj1 empty_content_is_failure
           {| status_code := 200; json_body := Some (chat_completion "   ") |}).
  - unfold is_2xx; simpl; lia.
  - vm_compute. repeat constructor.
Defined.

(** C6. In every run, every call has an attempt index below 3, no model is
    called more than three times, and a call that yields a text is the last
    event of the run, whose result is that text: no sleep, attempt or model
    comes after it. *)
Theorem attempt_budget_and_first_success (env : environ) (net : network) :
  let r := _generate_affirmation env net in
  Forall attempt_in_budget (events r)
  ∧ (∀ m, count_posts m (events r) ≤ 3)
  ∧ (∀ pre m k o post text,
       events r = pre ++ EvPost m k o :: post → try_body o = inr text →
       post = [] ∧ outcome r = Return text).
Proof.
  unfold _generate_affirmation. cbv zeta.
  destruct (negb _).
  { simpl. split_and!; [apply Forall_nil_2 | |].
    - intros m. change (count_posts m []) with 0. lia.
    - intros pre ??????. by destruct pre. }
  set (models := _parse_model_list _ _). unfold orchestrate.
  rewrite raise_last_error_events.
  destruct (models_loop_budget net models None 0) as [Hb Hc].
  { apply dedupe_NoDup. }
  split_and!; [done | intros m; apply Hc |].
  intros pre m k o post text Hevs Htry.
  assert (models ≠ []) as Hne.
  { unfold models. by destruct (parse_model_list_head
      (default (py "meta-llama/Meta-Llama-3-8B-Instruct") (HUGGING_FACE_MODEL env))
      (Some (default (py "Qwen/Qwen2.5-7B-Instruct") (HUGGING_FACE_FALLBACK_MODELS env))))
      as [tl ->]. }
  destruct (success_is_last _ pre m k o post text
              (models_loop_shape net models None 0 Hne) Hevs Htry) as [-> Hout].
  split; [done|]. by apply raise_last_error_Return.
Qed.

(** C6 on the example of the design document: m1 answers 500, then a
    regular answer; m2 and m3 are never called. *)
Lemma first_success_ends_the_run :
  let r := _generate_affirmation (env_of "m1" "m2,m1,m3")
             (λ n _, match n with
                     | 0 => http 500 (error_body "Internal error")
                     | _ => http 200 (chat_completion "Stay steady, Amina.")
                     end) in
  events r = [EvPost (py "m1") 0 (http 500 (error_body "Internal error")); EvSleep 2;
              EvPost (py "m1") 1 (http 200 (chat_completion "Stay steady, Amina."))]
  ∧ outcome r = Return (py "Stay steady, Amina.").
Proof.
  split; [by vm_compute|].
  apply (proj2 (proj2 (attempt_budget_and_first_success
                         (env_of "m1" "m2,m1,m3")
                         (λ n _, match n with
                                 | 0 => http 500 (error_body "Internal error")
                                 | _ => http 200 (chat_completion "Stay steady, Amina.")
                                 end)))
           [EvPost (py "m1") 0 (http 500 (error_body "Internal error")); EvSleep 2]
           (py "m1") 1 (http 200 (chat_completion "Stay steady, Amina.")) []
           (py "Stay steady, Amina.")).
  - by vm_compute.
  - by vm_compute.
Defined.

(** C7. When the loop over a non-empty candidate list ends without a
    successful attempt, [last_error] holds the failure of the last call of
    the run, every earlier attempt failed too, and that failure is what the
    final [raise] raises: [last_error] is not [None], so the generic
    [RuntimeError] is not the one raised. *)
Theorem exhausted_raises_last_failure (net : network) (models : list str) :
  models ≠ [] → outcome (models_loop net models None 0) = Next →
  ∃ pre m k o e,
    events (models_loop net models None 0) = pre ++ [EvPost m k o]
    ∧ Forall failed_event pre
    ∧ try_body o = inl e
    ∧ last_error (models_loop net models None 0) = Some e
    ∧ orchestrate net models
      = {| outcome := Raise e; last_error := Some e;
           calls := calls (models_loop net models None 0);
           events := pre ++ [EvPost m k o] |}.
Proof.
  intros Hne Hout.
  destruct (models_loop_shape net models None 0 Hne) as (pre & m & k & o & Hevs & Hpre & Ho).
  destruct (try_body o) as [e|text] eqn:Htry; [|congruence].
  destruct Ho as [Hlast _]. exists pre, m, k, o, e.
  split_and!; [done..|].
  unfold orchestrate, raise_last_error. rewrite Hout, Hlast, Hevs. done.
Qed.

(** C7 at two models whose calls all time out. *)
Lemma exhausted_after_timeouts :
  ∃ pre m k o e,
    events (models_loop (λ _ _, Raises Timeout) [py "m1"; py "m2"] None 0)
    = pre ++ [EvPost m k o]
    ∧ Forall failed_event pre
    ∧ try_body o = inl e
    ∧ last_error (models_loop (λ _ _, Raises Timeout) [py "m1"; py "m2"] None 0) = Some e
    ∧ orchestrate (λ _ _, Raises Timeout) [py "m1"; py "m2"]
      = {| outcome := Raise e; last_error := Some e;
           calls := calls (models_loop (λ _ _, Raises Timeout) [py "m1"; py "m2"] None 0);
           events := pre ++ [EvPost m k o] |}.
Proof.
  apply (exhausted_raises_last_failure (λ _ _, Raises Timeout) [py "m1"; py "m2"]).
  - discriminate.
  - reflexivity.
Defined.

(** * More of the code *)

(** ** Comma-separated lists *)

Section comma_lists.
Implicit Types (s x piece : str) (l : list str).

(** A string without whitespace at either end is left alone by [strip]. *)
Lemma strip_fixed s :
  (∀ c, head s = Some c → isspace c = false) →
  (∀ c, last s = Some c → isspace c = false) →
  strip s = s.
Proof.
  intros Hhd Hlast. unfold strip, rstrip.
  assert (∀ t, (∀ c, head t = Some c → isspace c = false) → lstrip t = t) as Hl.
  { intros [|c t] Ht; [done|]. simpl. by rewrite (Ht c). }
  rewrite (Hl s Hhd), Hl; [apply reverse_involutive|].
  intros c. rewrite head_reverse. apply Hlast.
Qed.

Lemma strip_idemp s : strip (strip s) = strip s.
Proof.
  destruct (strip_spec s) as (_ & _ & _ & _ & _ & Hhd & Hlast).
  by apply strip_fixed.
Qed.

Lemma strip_length s : length (strip s) ≤ length s.
Proof.
  destruct (strip_spec s) as (l & r & Hs & _). rewrite Hs at 2.
  rewrite !length_app. lia.
Qed.

Lemma strip_elem_of s c : c ∈ strip s → c ∈ s.
Proof.
  destruct (strip_spec s) as (l & r & Hs & _). rewrite Hs at 2. set_solver.
Qed.

(** The pieces of [split] hold the code points of the string, commas
    excepted. *)
Lemma split_comma_elem_of s piece c :
  piece ∈ split_comma s → c ∈ piece → c ∈ s ∧ c ≠ 44%N.
Proof.
  revert piece. induction s as [|a s IH]; intros piece; simpl.
  - intros ->%list_elem_of_singleton. by intros ?%elem_of_nil.
  - destruct (a =? 44)%N eqn:Ha.
    + intros [->|Hin]%elem_of_cons Hc; [by apply elem_of_nil in Hc|].
      destruct (IH piece Hin Hc). split; [by right | done].
    + apply N.eqb_neq in Ha.
      destruct (split_comma s) as [|p ps] eqn:Hsplit.
      * intros ->%list_elem_of_singleton ->%list_elem_of_singleton.
        split; [by left | done].
      * intros [->|Hin]%elem_of_cons Hc.
        -- apply elem_of_cons in Hc as [->|Hc]; [split; [by left | done]|].
           destruct (IH p) as [? ?]; [by left | done |]. split; [by right | done].
        -- destruct (IH piece) as [? ?]; [by right | done |]. split; [by right | done].
Qed.

Lemma split_comma_no_comma x : 44%N ∉ x → split_comma x = [x].
Proof.
  induction x as [|c x IH]; [done|]. intros Hx. simpl.
  destruct (c =? 44)%N eqn:Hc; [apply N.eqb_eq in Hc; set_solver|].
  rewrite IH; [done | set_solver].
Qed.

Lemma split_comma_app x s :
  44%N ∉ x → split_comma (x ++ 44%N :: s) = x :: split_comma s.
Proof.
  induction x as [|c x IH]; [done|]. intros Hx. simpl.
  destruct (c =? 44)%N eqn:Hc; [apply N.eqb_eq in Hc; set_solver|].
  rewrite IH; [done | set_solver].
Qed.

(** The comprehension shared by lines 30 and 36 keeps the trimmed pieces
    that are not blank. *)
Lemma fallback_entries_clean raw x :
  x ∈ fallback_entries raw → clean_entry x ∧ ∀ c, c ∈ x → c ∈ raw.
Proof.
  unfold fallback_entries. intros (piece & Hpiece & Hx)%list_elem_of_omap.
  destruct (str_bool (strip piece)) eqn:Hb; [|done]. injection Hx as <-.
  split; [split_and!|].
  - by destruct (strip piece).
  - apply strip_idemp.
  - intros Hc%strip_elem_of. by destruct (split_comma_elem_of raw piece 44%N).
  - intros c Hc%strip_elem_of. by destruct (split_comma_elem_of raw piece c).
Qed.

Lemma fallback_entries_join l :
  Forall clean_entry l → fallback_entries (join_comma l) = l.
Proof.
  unfold fallback_entries.
  induction 1 as [|x l (Hne & Hstrip & Hcomma) Hl IH]; [done|].
  assert (str_bool (strip x) = true) as Hb by (rewrite Hstrip; by destruct x).
  destruct l as [|y l].
  - simpl. rewrite split_comma_no_comma by done. simpl. by rewrite Hb, Hstrip.
  - change (join_comma (x :: y :: l)) with (x ++ 44%N :: join_comma (y :: l)).
    rewrite split_comma_app by done.
    set (rest := join_comma (y :: l)) in *. simpl. rewrite Hb, Hstrip.
    f_equal. exact IH.
Qed.

Lemma fallback_entries_blank raw :
  Forall (λ c, c = 44%N ∨ isspace c = true) raw → fallback_entries raw = [].
Proof.
  intros Hraw. destruct (fallback_entries raw) as [|x l] eqn:Hx; [done|].
  assert (x ∈ fallback_entries raw) as Hin by (rewrite Hx; by left).
  apply list_elem_of_omap in Hin as (piece & Hpiece & Hsome).
  assert (strip piece = []) as Hs.
  { apply strip_nil, Forall_forall. intros c Hc.
    destruct (split_comma_elem_of raw piece c Hpiece Hc) as [Hc' Hne].
    rewrite Forall_forall in Hraw. by destruct (Hraw c Hc'). }
  by rewrite Hs in Hsome.
Qed.

(** Every code point but the commas is in some piece of [split]. *)
Lemma split_comma_covers s c :
  c ∈ s → c ≠ 44%N → ∃ piece, piece ∈ split_comma s ∧ c ∈ piece.
Proof.
  induction s as [|a s IH]; [by intros ?%elem_of_nil|].
  intros Hc Hne. simpl. destruct (a =? 44)%N eqn:Ha.
  - apply N.eqb_eq in Ha. apply elem_of_cons in Hc as [->|Hc]; [done|].
    destruct (IH Hc Hne) as (piece & Hpiece & Hin). exists piece. split; [by right | done].
  - destruct (split_comma s) as [|p ps] eqn:Hsplit.
    + apply elem_of_cons in Hc as [->|Hc].
      * exists [a]. split; by left.
      * destruct (IH Hc Hne) as (piece & Hpiece & _). by apply elem_of_nil in Hpiece.
    + apply elem_of_cons in Hc as [->|Hc].
      * exists (a :: p). split; by left.
      * destruct (IH Hc Hne) as (piece & Hpiece & Hin).
        apply elem_of_cons in Hpiece as [->|Hpiece].
        -- exists (a :: p). split; [by left | by right].
        -- exists piece. split; [by right | done].
Qed.

(** A string with a code point that is neither a comma nor whitespace has
    an entry. *)
Lemma fallback_entries_nonblank raw :
  Exists (λ c, c ≠ 44%N ∧ isspace c = false) raw → fallback_entries raw ≠ [].
Proof.
  intros (c & Hc & Hne & Hsp)%Exists_exists.
  destruct (split_comma_covers raw c Hc Hne) as (piece & Hpiece & Hin).
  assert (strip piece ≠ []) as Hstrip.
  { intros Hnil%strip_nil. unfold whitespace_only in Hnil. rewrite Forall_forall in Hnil.
    specialize (Hnil c Hin). congruence. }
  assert (strip piece ∈ fallback_entries raw) as Helem.
  { unfold fallback_entries. apply list_elem_of_omap. exists piece. split; [done|].
    by destruct (strip piece). }
  intros Hnil. rewrite Hnil in Helem. by apply elem_of_nil in Helem.
Qed.

Lemma parse_allowed_origins_entries raw :
  _parse_allowed_origins (Some raw) = fallback_entries raw.
Proof. unfold _parse_allowed_origins. by destruct raw. Qed.

(** A list without duplicates goes through the loop unchanged. *)
Lemma dedupe_NoDup_id l : NoDup l → dedupe_loop l ∅ [] = l.
Proof.
  induction l as [|m l IH] using rev_ind; [done|].
  intros [Hl [Hm _]]%NoDup_app. rewrite dedupe_snoc, IH by done.
  case_decide; [|done]. destruct (Hm m); [done | by left].
Qed.
End comma_lists.

(** Settles [clean_entry] on a literal. *)
Ltac clean_entry_by_computation :=
  split_and!; [done | by vm_compute | apply (bool_decide_unpack _); by vm_compute].

(** X1. Every origin that [_parse_allowed_origins] returns is not empty, has
    no whitespace at either end, contains no comma and is made of code
    points of the configured string; an unset variable gives no origin. *)
Theorem allowed_origins_are_clean (raw : option str) (origin : str) :
  origin ∈ _parse_allowed_origins raw →
  ∃ text, raw = Some text
          ∧ origin ≠ []
          ∧ (∀ c, head origin = Some c → isspace c = false)
          ∧ (∀ c, last origin = Some c → isspace c = false)
          ∧ (44%N ∉ origin)
          ∧ ∀ c, c ∈ origin → c ∈ text.
Proof.
  destruct raw as [text|]; [|by intros ?%elem_of_nil].
  rewrite parse_allowed_origins_entries.
  intros [(Hne & Hstrip & Hcomma) Hsub]%fallback_entries_clean.
  exists text. destruct (strip_spec origin) as (_ & _ & _ & _ & _ & Hhd & Hlast).
  rewrite Hstrip in Hhd, Hlast. done.
Qed.

Lemma allowed_origins_are_clean_example :
  ∃ text, Some (py " https://a.example , ,https://b.example") = Some text
          ∧ py "https://a.example" ≠ []
          ∧ (∀ c, head (py "https://a.example") = Some c → isspace c = false)
          ∧ (∀ c, last (py "https://a.example") = Some c → isspace c = false)
          ∧ (44%N ∉ py "https://a.example")
          ∧ ∀ c, c ∈ py "https://a.example"
                 → c ∈ text.
Proof.
  apply (allowed_origins_are_clean
           (Some (py " https://a.example , ,https://b.example"))
           (py "https://a.example")).
  apply (bool_decide_unpack _). by vm_compute.
Defined.

(** X2. Round trip: origins that are not empty, have no whitespace at either
    end and contain no comma, written separated by commas, are read back as
    the same list, duplicates included. *)
Theorem allowed_origins_round_trip (origins : list str) :
  Forall clean_entry origins →
  _parse_allowed_origins (Some (join_comma origins)) = origins.
Proof.
  intros Hl. rewrite parse_allowed_origins_entries. by apply fallback_entries_join.
Qed.

Lemma allowed_origins_round_trip_example :
  _parse_allowed_origins
    (Some (join_comma [py "https://a.example"; py "https://b.example";
                       py "https://a.example"]))
  = [py "https://a.example"; py "https://b.example"; py "https://a.example"].
Proof.
  apply (allowed_origins_round_trip
           [py "https://a.example"; py "https://b.example"; py "https://a.example"]).
  repeat (apply Forall_cons; split; [clean_entry_by_computation|]). apply Forall_nil_2.
Defined.

(** X3. The origins handed to the CORS middleware are never an empty list:
    when [ALLOWED_ORIGINS] is unset, or holds nothing but commas and
    whitespace, every origin is allowed (the wildcard); when it holds a
    code point that is neither a comma nor whitespace, the parsed list is
    not empty and is what the middleware gets. *)
Theorem cors_falls_back_to_wildcard (ALLOWED_ORIGINS : option str) :
  cors_allow_origins ALLOWED_ORIGINS ≠ []
  ∧ (from_option (Forall (λ c, c = 44%N ∨ isspace c = true)) True ALLOWED_ORIGINS →
     _parse_allowed_origins ALLOWED_ORIGINS = []
     ∧ cors_allow_origins ALLOWED_ORIGINS = [py "*"])
  ∧ (from_option (Exists (λ c, c ≠ 44%N ∧ isspace c = false)) False ALLOWED_ORIGINS →
     _parse_allowed_origins ALLOWED_ORIGINS ≠ []
     ∧ cors_allow_origins ALLOWED_ORIGINS = _parse_allowed_origins ALLOWED_ORIGINS).
Proof.
  unfold cors_allow_origins. split_and!.
  - by destruct (_parse_allowed_origins ALLOWED_ORIGINS).
  - destruct ALLOWED_ORIGINS as [raw|]; [|done]. intros Hraw.
    rewrite parse_allowed_origins_entries, fallback_entries_blank; [done|exact Hraw].
  - destruct ALLOWED_ORIGINS as [raw|]; [|done]. intros Hraw.
    rewrite parse_allowed_origins_entries.
    pose proof (fallback_entries_nonblank raw Hraw) as Hne.
    by destruct (fallback_entries raw).
Qed.

(** X4. Round trip for the models: a primary and fallback identifiers that
    are all distinct, the fallback ones not empty, without whitespace at
    either end and without comma, written as a comma-separated fallback
    string, give back the primary followed by the fallback identifiers. *)
Theorem parse_model_list_round_trip (primary : str) (fallback : list str) :
  Forall clean_entry fallback → NoDup (primary :: fallback) →
  _parse_model_list primary (Some (join_comma fallback)) = primary :: fallback.
Proof.
  intros Hclean Hnd. unfold _parse_model_list.
  assert (models_before_dedupe primary (Some (join_comma fallback))
          = primary :: fallback) as ->; [|by apply dedupe_NoDup_id].
  unfold models_before_dedupe. simpl. f_equal.
  destruct (str_bool (join_comma fallback)) eqn:Hb.
  - by apply fallback_entries_join.
  - destruct fallback as [|x [|y l]]; [done | |by destruct x].
    apply Forall_cons in Hclean as [(Hne & _) _]. by destruct x.
Qed.

Lemma parse_model_list_round_trip_example :
  _parse_model_list (py "m1") (Some (join_comma [py "m2"; py "m3"]))
  = [py "m1"; py "m2"; py "m3"].
Proof.
  apply (parse_model_list_round_trip (py "m1") [py "m2"; py "m3"]).
  - repeat (apply Forall_cons; split; [clean_entry_by_computation|]). apply Forall_nil_2.
  - apply (bool_decide_unpack _). by vm_compute.
Defined.

(** X5. The candidate list is the primary alone exactly when every fallback
    entry (trimmed, blank ones dropped) equals the primary: in particular
    when the fallback string is missing, empty, or holds only commas and
    whitespace. *)
Theorem parse_model_list_single (primary : str) (fallback_raw : option str) :
  (_parse_model_list primary fallback_raw = [primary]
   ↔ ∀ m, m ∈ from_option fallback_entries [] fallback_raw → m = primary)
  ∧ (from_option (Forall (λ c, c = 44%N ∨ isspace c = true)) True fallback_raw →
     _parse_model_list primary fallback_raw = [primary]).
Proof.
  assert (models_before_dedupe primary fallback_raw
          = primary :: from_option fallback_entries [] fallback_raw) as Hmodels.
  { unfold models_before_dedupe. simpl. f_equal.
    destruct fallback_raw as [[|c raw]|]; done. }
  assert (_parse_model_list primary fallback_raw = [primary]
          ↔ ∀ m, m ∈ from_option fallback_entries [] fallback_raw → m = primary) as Hiff.
  { split.
    - intros Hone m Hm.
      assert (m ∈ _parse_model_list primary fallback_raw) as Hin.
      { apply dedupe_elem_of. rewrite Hmodels. by right. }
      rewrite Hone in Hin. by apply list_elem_of_singleton in Hin.
    - intros Hall. destruct (parse_model_list_head primary fallback_raw) as [tl Htl].
      rewrite Htl. f_equal. destruct tl as [|m tl]; [done|]. exfalso.
      pose proof (dedupe_NoDup (models_before_dedupe primary fallback_raw)) as Hnd.
      fold (_parse_model_list primary fallback_raw) in Hnd. rewrite Htl in Hnd.
      apply NoDup_cons in Hnd as [Hnotin _]. apply Hnotin.
      assert (m ∈ models_before_dedupe primary fallback_raw) as Hm.
      { apply dedupe_elem_of. fold (_parse_model_list primary fallback_raw).
        rewrite Htl. set_solver. }
      rewrite Hmodels in Hm. apply elem_of_cons in Hm as [->|Hm]; [by left|].
      rewrite (Hall m Hm). by left. }
  split; [done|]. intros Hblank. apply Hiff.
  destruct fallback_raw as [raw|]; simpl in *; [|by intros m ?%elem_of_nil].
  rewrite fallback_entries_blank by done. by intros m ?%elem_of_nil.
Qed.

(** ** The shape and the cost of a run *)

Section blocks.
Implicit Types (net : network) (model m : str) (last : option PyExc) (n : nat).

Lemma attempts_loop_block net model last n :
  model_block model (events (attempts_loop net model range3 last n)).
Proof.
  unfold range3. simpl.
  destruct (try_body (net n model)) as [e0|t0] eqn:H0; [|apply block_one].
  destruct (on_failure_cases e0 0) as [->|[->|(_ & w0 & -> & [= <-])]];
    [apply block_one.. |].
  simpl.
  destruct (try_body (net (S n) model)) as [e1|t1] eqn:H1;
    [|apply block_two; by eexists].
  destruct (on_failure_cases e1 1) as [->|[->|(_ & w1 & -> & [= <-])]];
    [apply block_two; by eexists.. |].
  simpl.
  destruct (try_body (net (S (S n)) model)) as [e2|t2] eqn:H2;
    [|apply block_three; by eexists].
  destruct (on_failure_cases e2 2) as [->|[->|(? & _)]];
    [apply block_three; by eexists.. | lia].
Qed.

Lemma model_block_cost model evs :
  model_block model evs →
  1 ≤ post_count evs ≤ 3 ∧ (0 ≤ total_sleep evs ≤ 6)%Z
  ∧ Forall (λ ev, ∀ w, ev = EvSleep w → w = 2%Z ∨ w = 4%Z) evs.
Proof.
  destruct 1;
    (split_and!; [unfold post_count; simpl; lia | unfold post_count; simpl; lia
                 | simpl; lia | simpl; lia |]);
    repeat (apply Forall_cons; split; [intros w [= <-] || intros w [=]; auto|]);
    apply Forall_nil_2.
Qed.

Lemma post_count_app evs evs' :
  post_count (evs ++ evs') = post_count evs + post_count evs'.
Proof. unfold post_count. by rewrite filter_app, length_app. Qed.

Lemma total_sleep_app evs evs' :
  total_sleep (evs ++ evs') = (total_sleep evs + total_sleep evs')%Z.
Proof. induction evs as [|[m k o|w] evs IH]; simpl; lia. Qed.

(** The counter [calls] counts the calls recorded in the trace. *)
Lemma attempts_loop_calls net model attempts last n :
  calls (attempts_loop net model attempts last n)
  = n + post_count (events (attempts_loop net model attempts last n)).
Proof.
  assert (∀ m k o evs, post_count (EvPost m k o :: evs) = S (post_count evs)) as Hpost.
  { intros. unfold post_count. by rewrite filter_cons_True. }
  assert (∀ w evs, post_count (EvSleep w :: evs) = post_count evs) as Hsleep.
  { intros. unfold post_count. by rewrite filter_cons_False by (intros []). }
  revert last n. induction attempts as [|k rest IH]; intros last n; simpl.
  { change (post_count []) with 0. lia. }
  destruct (try_body (net n model)) as [err|text]; simpl.
  - destruct (on_failure err k) as [e| |w]; simpl; rewrite Hpost.
    + change (post_count []) with 0. lia.
    + change (post_count []) with 0. lia.
    + rewrite Hsleep, IH. lia.
  - rewrite Hpost. change (post_count []) with 0. lia.
Qed.

Lemma models_loop_calls net models last n :
  calls (models_loop net models last n)
  = n + post_count (events (models_loop net models last n)).
Proof.
  revert last n. induction models as [|model rest IH]; intros last n.
  { simpl. change (post_count []) with 0. lia. }
  rewrite models_loop_cons. cbv zeta.
  pose proof (attempts_loop_calls net model range3 last n) as Hc.
  destruct (outcome (attempts_loop net model range3 last n)); [done..|].
  cbn [calls events]. rewrite IH, post_count_app, Hc. lia.
Qed.

(** The trace of the loop over the models is made of one block per model
    tried, for the first models of the list, in their order. *)
Lemma models_loop_blocks net models last n :
  ∃ tried blocks,
    tried `prefix_of` models ∧ Forall2 model_block tried blocks
    ∧ events (models_loop net models last n) = concat blocks
    ∧ (models ≠ [] → tried ≠ []).
Proof.
  revert last n. induction models as [|model rest IH]; intros last n.
  { exists [], []. split_and!; [done | constructor | done | done]. }
  rewrite models_loop_cons. cbv zeta.
  pose proof (attempts_loop_block net model last n) as Hb.
  destruct (outcome (attempts_loop net model range3 last n)).
  - exists [model], [events (attempts_loop net model range3 last n)].
    split_and!; [by apply prefix_cons, prefix_nil | by repeat constructor
                | simpl; by rewrite app_nil_r | done].
  - exists [model], [events (attempts_loop net model range3 last n)].
    split_and!; [by apply prefix_cons, prefix_nil | by repeat constructor
                | simpl; by rewrite app_nil_r | done].
  - destruct (IH (last_error (attempts_loop net model range3 last n))
                 (calls (attempts_loop net model range3 last n)))
      as (tried & blocks & Hpre & Hbl & Hev & _).
    exists (model :: tried), (events (attempts_loop net model range3 last n) :: blocks).
    split_and!; [by apply prefix_cons | by constructor | | done].
    cbn [events]. by rewrite Hev.
Qed.

Lemma blocks_cost (tried : list str) (blocks : list (list event)) :
  Forall2 model_block tried blocks →
  length tried ≤ post_count (concat blocks) ≤ 3 * length tried
  ∧ (0 ≤ total_sleep (concat blocks) ≤ 6 * Z.of_nat (length tried))%Z
  ∧ Forall (λ ev, ∀ w, ev = EvSleep w → w = 2%Z ∨ w = 4%Z) (concat blocks).
Proof.
  induction 1 as [|m evs tried blocks Hb _ (IHp & IHs & IHw)].
  { split_and!; [unfold post_count; simpl; lia | unfold post_count; simpl; lia
                | simpl; lia | simpl; lia | apply Forall_nil_2]. }
  destruct (model_block_cost m evs Hb) as (Hp & Hs & Hw).
  simpl concat. rewrite post_count_app, total_sleep_app.
  split_and!; [simpl; lia | simpl; lia | lia | cbn [length]; lia | by apply Forall_app_2].
Qed.

(** With retryable failures only, a model uses its three attempts. *)
Lemma attempts_loop_exhausted net model last n e0 e1 e2 :
  try_body (net n model) = inl e0 → classify e0 = RETRY_WITH_BACKOFF →
  try_body (net (S n) model) = inl e1 → classify e1 = RETRY_WITH_BACKOFF →
  try_body (net (S (S n)) model) = inl e2 → classify e2 = RETRY_WITH_BACKOFF →
  attempts_loop net model range3 last n
  = {| outcome := Next; last_error := Some e2; calls := 3 + n;
       events := [EvPost model 0 (net n model); EvSleep 2;
                  EvPost model 1 (net (S n) model); EvSleep 4;
                  EvPost model 2 (net (S (S n)) model)] |}.
Proof.
  intros H0 C0 H1 C1 H2 C2. unfold range3. simpl.
  rewrite H0, (classify_retry e0 0 C0). simpl.
  rewrite H1, (classify_retry e1 1 C1). simpl.
  rewrite H2, (classify_retry e2 2 C2). done.
Qed.

Lemma models_loop_exhausted net models last n :
  (∀ i m, ∃ e, try_body (net i m) = inl e ∧ classify e = RETRY_WITH_BACKOFF) →
  outcome (models_loop net models last n) = Next
  ∧ calls (models_loop net models last n) = 3 * length models + n
  ∧ events (models_loop net models last n) = exhaustive_trace net n models
  ∧ (models ≠ [] → is_Some (last_error (models_loop net models last n))).
Proof.
  intros Hnet. revert last n. induction models as [|model rest IH]; intros last n.
  { split_and!; [done | done | done | done]. }
  destruct (Hnet n model) as (e0 & H0 & C0).
  destruct (Hnet (S n) model) as (e1 & H1 & C1).
  destruct (Hnet (S (S n)) model) as (e2 & H2 & C2).
  rewrite models_loop_cons. cbv zeta.
  rewrite (attempts_loop_exhausted net model last n e0 e1 e2) by done.
  cbn [outcome last_error calls events].
  destruct (IH (Some e2) (3 + n)) as (Hout & Hcalls & Hevs & Hlast).
  split_and!; [done | rewrite Hcalls; cbn [length]; lia | by rewrite Hevs |].
  intros _. destruct rest as [|model' rest]; [by eexists | by apply Hlast].
Qed.

Lemma exhaustive_trace_sleep net n models :
  total_sleep (exhaustive_trace net n models) = (6 * Z.of_nat (length models))%Z.
Proof.
  revert n. induction models as [|m models IH]; intros n; [done|].
  cbn [exhaustive_trace]. rewrite total_sleep_app, IH. cbn [length].
  change (total_sleep _) with 6%Z. lia.
Qed.
End blocks.

Section whole_runs.
Implicit Types (env : environ) (net : network).

Lemma attempts_loop_first net model last n :
  ∃ rest, events (attempts_loop net model range3 last n)
          = EvPost model 0 (net n model) :: rest.
Proof. unfold range3. simpl. by eexists. Qed.

(** The run of the orchestrator never ends in the middle: it returns a text
    or raises. *)
Lemma orchestrate_finishes net models : outcome (orchestrate net models) ≠ Next.
Proof.
  unfold orchestrate, raise_last_error.
  by destruct (outcome (models_loop net models None 0)) eqn:Hout; simpl; rewrite ?Hout.
Qed.

Lemma generate_affirmation_finishes env net :
  outcome (_generate_affirmation env net) ≠ Next.
Proof.
  unfold _generate_affirmation. cbv zeta. destruct (negb _); [done|].
  apply orchestrate_finishes.
Qed.

(** A text returned by a run is the trimmed content of its last response. *)
Lemma orchestrate_returns net models text :
  outcome (orchestrate net models) = Return text →
  text ≠ []
  ∧ (∀ c, head text = Some c → isspace c = false)
  ∧ (∀ c, last text = Some c → isspace c = false)
  ∧ ∃ pre m k r s,
      events (orchestrate net models) = pre ++ [EvPost m k (Returns r)]
      ∧ json_body r ≫= response_content = Some s ∧ text = strip s.
Proof.
  intros Hret. unfold orchestrate in *.
  rewrite raise_last_error_events. rewrite raise_last_error_Return in Hret.
  destruct models as [|model rest]; [done|].
  destruct (models_loop_shape net (model :: rest) None 0)
    as (pre & m & k & o & Hevs & _ & Ho); [done|].
  destruct (try_body o) as [e|text'] eqn:Htry.
  { destruct Ho as [_ [Ho|Ho]]; congruence. }
  assert (text' = text) as -> by congruence.
  apply try_body_success in Htry as (r & body & s & -> & Hbody & Hcontent & -> & Hne).
  destruct (strip_spec s) as (_ & _ & _ & _ & _ & Hhd & Hlast).
  split_and!; [done..|]. exists pre, m, k, r, s. by rewrite Hbody.
Qed.
End whole_runs.

(** X6. The trace of a run is a sequence of blocks, one per model tried; the
    models tried are the first candidates, in the order of the list, and at
    least one if the list is not empty. A block is attempt 0, or attempt 0,
    a sleep of 2 seconds and attempt 1, or those followed by a sleep of 4
    seconds and attempt 2, where every attempt followed by a sleep failed. *)
Theorem trace_is_blocks_in_candidate_order (net : network) (models : list str) :
  ∃ tried blocks,
    tried `prefix_of` models ∧ Forall2 model_block tried blocks
    ∧ events (orchestrate net models) = concat blocks
    ∧ (models ≠ [] → tried ≠ []).
Proof.
  unfold orchestrate. rewrite raise_last_error_events. apply models_loop_blocks.
Qed.

(** X7. No run ever sleeps 8 seconds: every sleep lasts 2 or 4 seconds, so
    the third entry of [backoff_delays] is never used. *)
Theorem sleeps_are_two_or_four (env : environ) (net : network) :
  (EvSleep 8 ∉ events (_generate_affirmation env net))
  ∧ Forall (λ ev, ∀ w, ev = EvSleep w → w = 2%Z ∨ w = 4%Z)
           (events (_generate_affirmation env net)).
Proof.
  assert (Forall (λ ev, ∀ w, ev = EvSleep w → w = 2%Z ∨ w = 4%Z)
                 (events (_generate_affirmation env net))) as Hall.
  { unfold _generate_affirmation. cbv zeta. destruct (negb _); [apply Forall_nil_2|].
    unfold orchestrate. rewrite raise_last_error_events.
    destruct (models_loop_blocks net
                (_parse_model_list
                   (default (py "meta-llama/Meta-Llama-3-8B-Instruct") (HUGGING_FACE_MODEL env))
                   (Some (default (py "Qwen/Qwen2.5-7B-Instruct")
                                  (HUGGING_FACE_FALLBACK_MODELS env))))
                None 0) as (tried & blocks & _ & Hbl & -> & _).
    by destruct (blocks_cost tried blocks Hbl) as (_ & _ & ?). }
  split; [|done]. intros Hin. rewrite Forall_forall in Hall.
  destruct (Hall _ Hin 8%Z eq_refl); done.
Qed.

(** X8. Cost of a run over a candidate list: the number of calls of
    [requests.post] is the number of calls in the trace, at most three per
    candidate, and the time slept is at most six seconds per candidate. *)
Theorem worst_case_cost (net : network) (models : list str) :
  calls (orchestrate net models) = post_count (events (orchestrate net models))
  ∧ calls (orchestrate net models) ≤ 3 * length models
  ∧ (0 ≤ total_sleep (events (orchestrate net models)) ≤ 6 * Z.of_nat (length models))%Z.
Proof.
  assert (calls (orchestrate net models) = calls (models_loop net models None 0)) as ->.
  { unfold orchestrate, raise_last_error.
    by destruct (outcome (models_loop net models None 0)). }
  unfold orchestrate. rewrite raise_last_error_events, models_loop_calls.
  destruct (models_loop_blocks net models None 0) as (tried & blocks & Hpre & Hbl & -> & _).
  destruct (blocks_cost tried blocks Hbl) as (Hp & Hs & _).
  apply prefix_length in Hpre. split_and!; [done | lia..].
Qed.

(** X9. When every call fails with a retryable failure, every candidate is
    called exactly three times, in the order of the list, with sleeps of 2
    and 4 seconds after its first two attempts and none after the third:
    three calls and six seconds per candidate, and the run raises. *)
Theorem exhausted_run (net : network) (models : list str) :
  (∀ i m, ∃ e, try_body (net i m) = inl e ∧ classify e = RETRY_WITH_BACKOFF) →
  events (orchestrate net models) = exhaustive_trace net 0 models
  ∧ calls (orchestrate net models) = 3 * length models
  ∧ total_sleep (events (orchestrate net models)) = (6 * Z.of_nat (length models))%Z
  ∧ ∃ e, outcome (orchestrate net models) = Raise e.
Proof.
  intros Hnet.
  destruct (models_loop_exhausted net models None 0 Hnet) as (Hout & Hcalls & Hevs & _).
  unfold orchestrate, raise_last_error. rewrite Hout. cbn [events calls outcome].
  rewrite Hevs, Hcalls, exhaustive_trace_sleep.
  split_and!; [done | lia | done | by eexists].
Qed.

Lemma exhausted_run_timeouts :
  events (orchestrate (λ _ _, Raises Timeout) [py "m1"; py "m2"])
  = exhaustive_trace (λ _ _, Raises Timeout) 0 [py "m1"; py "m2"]
  ∧ calls (orchestrate (λ _ _, Raises Timeout) [py "m1"; py "m2"])
    = 3 * length [py "m1"; py "m2"]
  ∧ total_sleep (events (orchestrate (λ _ _, Raises Timeout) [py "m1"; py "m2"]))
    = (6 * Z.of_nat (length [py "m1"; py "m2"]))%Z
  ∧ ∃ e, outcome (orchestrate (λ _ _, Raises Timeout) [py "m1"; py "m2"]) = Raise e.
Proof.
  apply (exhausted_run (λ _ _, Raises Timeout) [py "m1"; py "m2"]).
  intros i m. by exists Timeout.
Defined.

(** X10. When the credential is set and the first call, to the primary
    model, yields a text, the run is that single call: the text is
    returned, nothing is slept and no other model is called, whatever the
    fallback models are. *)
Theorem first_attempt_success (env : environ) (net : network) (text : str) :
  let primary := default (py "meta-llama/Meta-Llama-3-8B-Instruct") (HUGGING_FACE_MODEL env) in
  from_option str_bool false (HUGGING_FACE_API_KEY env) = true →
  try_body (net 0 primary) = inr text →
  _generate_affirmation env net
  = {| outcome := Return text; last_error := None; calls := 1;
       events := [EvPost primary 0 (net 0 primary)] |}.
Proof.
  intros primary Hkey Htry. unfold _generate_affirmation. cbv zeta. rewrite Hkey. simpl negb.
  cbv iota. fold primary.
  destruct (parse_model_list_head primary
              (Some (default (py "Qwen/Qwen2.5-7B-Instruct")
                             (HUGGING_FACE_FALLBACK_MODELS env)))) as [tl ->].
  unfold orchestrate. rewrite models_loop_cons. cbv zeta.
  assert (attempts_loop net primary range3 None 0
          = {| outcome := Return text; last_error := None; calls := 1;
               events := [EvPost primary 0 (net 0 primary)] |}) as ->.
  { unfold range3. simpl. by rewrite Htry. }
  done.
Qed.

Lemma first_attempt_success_example :
  _generate_affirmation (env_of "m1" "m2,m3")
    (λ _ _, http 200 (chat_completion " Stay steady, Amina. "))
  = {| outcome := Return (py "Stay steady, Amina."); last_error := None; calls := 1;
       events := [EvPost (py "m1") 0
                    (http 200 (chat_completion " Stay steady, Amina. "))] |}.
Proof.
  apply (first_attempt_success (env_of "m1" "m2,m3")
           (λ _ _, http 200 (chat_completion " Stay steady, Amina. "))
           (py "Stay steady, Amina.")).
  - reflexivity.
  - by vm_compute.
Defined.

(** X11. The network is reached exactly when the credential is usable: with
    [HUGGING_FACE_API_KEY] unset or empty the function raises a [ValueError]
    without any call or sleep; otherwise the first event of the run is
    attempt 0 on the primary model. *)
Theorem network_reached_iff_credential (env : environ) (net : network) :
  let primary := default (py "meta-llama/Meta-Llama-3-8B-Instruct") (HUGGING_FACE_MODEL env) in
  (from_option str_bool false (HUGGING_FACE_API_KEY env) = false →
     _generate_affirmation env net
     = {| outcome := Raise (ValueError (py "HUGGING_FACE_API_KEY not set in environment"));
          last_error := None; calls := 0; events := [] |})
  ∧ (from_option str_bool false (HUGGING_FACE_API_KEY env) = true →
     ∃ rest, events (_generate_affirmation env net)
             = EvPost primary 0 (net 0 primary) :: rest)
  ∧ (events (_generate_affirmation env net) ≠ []
     ↔ from_option str_bool false (HUGGING_FACE_API_KEY env) = true).
Proof.
  intros primary.
  assert (from_option str_bool false (HUGGING_FACE_API_KEY env) = true →
          ∃ rest, events (_generate_affirmation env net)
                  = EvPost primary 0 (net 0 primary) :: rest) as Hsome.
  { intros Hkey. unfold _generate_affirmation. cbv zeta. rewrite Hkey. simpl negb.
    cbv iota. fold primary.
    destruct (parse_model_list_head primary
                (Some (default (py "Qwen/Qwen2.5-7B-Instruct")
                               (HUGGING_FACE_FALLBACK_MODELS env)))) as [tl ->].
    unfold orchestrate. rewrite raise_last_error_events, models_loop_cons. cbv zeta.
    destruct (attempts_loop_first net primary None 0) as [rest Hrest].
    destruct (outcome (attempts_loop net primary range3 None 0));
      cbn [events]; rewrite Hrest; by eexists. }
  assert (from_option str_bool false (HUGGING_FACE_API_KEY env) = false →
          _generate_affirmation env net
          = {| outcome := Raise (ValueError (py "HUGGING_FACE_API_KEY not set in environment"));
               last_error := None; calls := 0; events := [] |}) as Hnone.
  { intros Hkey. unfold _generate_affirmation. cbv zeta. by rewrite Hkey. }
  split_and!; [done | done |].
  destruct (from_option str_bool false (HUGGING_FACE_API_KEY env)) eqn:Hkey.
  - destruct (Hsome eq_refl) as [rest ->]. done.
  - rewrite (Hnone eq_refl). done.
Qed.

(** ** The endpoint *)

Section endpoint.
Implicit Types (data : RequestData) (hour : nat) (debug : bool)
  (env : environ) (net : network).

Lemma generate_affirmation_returns env net text :
  outcome (_generate_affirmation env net) = Return text →
  text ≠ []
  ∧ (∀ c, head text = Some c → isspace c = false)
  ∧ (∀ c, last text = Some c → isspace c = false)
  ∧ ∃ pre m k r s,
      events (_generate_affirmation env net) = pre ++ [EvPost m k (Returns r)]
      ∧ json_body r ≫= response_content = Some s ∧ text = strip s.
Proof.
  unfold _generate_affirmation. cbv zeta. destruct (negb _); [done|].
  apply orchestrate_returns.
Qed.

(** The test of line 72 passes exactly when neither field is blank. *)
Lemma required_fields_test data :
  negb (str_bool (strip (name data))) || negb (str_bool (strip (feeling data))) = true
  ↔ whitespace_only (name data) ∨ whitespace_only (feeling data).
Proof.
  rewrite orb_true_iff, !negb_true_iff, <- !strip_nil.
  by destruct (strip (name data)), (strip (feeling data)); naive_solver.
Qed.

Lemma user_payload_length (n f d c : str) :
  length (user_payload n f d c) = 40 + length n + length f + length d + length c.
Proof.
  unfold user_payload. repeat (rewrite ?length_app, ?length_cons).
  change (length (py "Name: ")) with 6. change (length (py "Feeling: ")) with 9.
  change (length (py "Details: ")) with 9. change (length (py "Time of day: ")) with 13.
  lia.
Qed.

Lemma time_of_day_length hour : 7 ≤ length (time_of_day hour) ≤ 9.
Proof. unfold time_of_day. repeat case_bool_decide; simpl; lia. Qed.
End endpoint.

(** X12. For a request within the field lengths of [RequestData], the
    endpoint answers 400 ("Name and feeling are required.") exactly when the
    name or the feeling is empty or made of whitespace only, and then
    nothing is sent: no user message is built and no call is made. *)
Theorem blank_name_or_feeling_is_rejected
    (data : RequestData) (hour : nat) (debug : bool) (env : environ) (net : network) :
  validated data →
  (whitespace_only (name data) ∨ whitespace_only (feeling data))
  ↔ generate_affirmation data hour debug env net
    = (HTTPException 400 NameAndFeelingRequired, None, []).
Proof.
  intros _.
  rewrite <- required_fields_test. unfold generate_affirmation. cbv zeta.
  destruct (negb (str_bool (strip (name data))) || negb (str_bool (strip (feeling data))));
    [done|].
  split; [done|].
  destruct (outcome (_generate_affirmation env net)) as [t|e|];
    [| destruct (is_TimeoutError e) |]; done.
Qed.

Lemma blank_feeling_is_rejected_example :
  (whitespace_only (py "Amina") ∨ whitespace_only (py "   "))
  ↔ generate_affirmation {| name := py "Amina"; feeling := py "   "; details := None |}
      9 false (env_of "m1" "m2") (λ _ _, http 200 (chat_completion "Stay steady, Amina."))
    = (HTTPException 400 NameAndFeelingRequired, None, []).
Proof.
  apply (blank_name_or_feeling_is_rejected
           {| name := py "Amina"; feeling := py "   "; details := None |}
           9 false (env_of "m1" "m2")
           (λ _ _, http 200 (chat_completion "Stay steady, Amina."))).
  unfold validated. simpl. lia.
Defined.

(** X13. An affirmation answered by the endpoint is never empty and has no
    whitespace at either end: it is the trimmed content of the last response
    of the run, and the name and the feeling of the request were not
    blank. *)
Theorem affirmation_is_never_blank
    (data : RequestData) (hour : nat) (debug : bool) (env : environ) (net : network)
    (affirmation : str) (sent : option str) (evs : list event) :
  generate_affirmation data hour debug env net = (Affirmation affirmation, sent, evs) →
  affirmation ≠ []
  ∧ (∀ c, head affirmation = Some c → isspace c = false)
  ∧ (∀ c, last affirmation = Some c → isspace c = false)
  ∧ ¬ whitespace_only (name data) ∧ ¬ whitespace_only (feeling data)
  ∧ ∃ pre m k r s,
      evs = pre ++ [EvPost m k (Returns r)]
      ∧ json_body r ≫= response_content = Some s ∧ affirmation = strip s.
Proof.
  unfold generate_affirmation. cbv zeta.
  destruct (negb (str_bool (strip (name data))) || negb (str_bool (strip (feeling data))))
    eqn:Htest; [done|].
  assert (¬ (whitespace_only (name data) ∨ whitespace_only (feeling data))) as Hnb.
  { rewrite <- required_fields_test, Htest. done. }
  destruct (outcome (_generate_affirmation env net)) as [t|e|] eqn:Hout;
    [| destruct (is_TimeoutError e); done | done].
  intros [= -> <- <-].
  destruct (generate_affirmation_returns env net affirmation Hout) as (? & ? & ? & ?).
  split_and!; [done.. | tauto | tauto | done].
Qed.

Lemma affirmation_is_never_blank_example :
  py "Stay steady, Amina." ≠ []
  ∧ (∀ c, head (py "Stay steady, Amina.") = Some c → isspace c = false)
  ∧ (∀ c, last (py "Stay steady, Amina.") = Some c → isspace c = false)
  ∧ ¬ whitespace_only (py "Amina") ∧ ¬ whitespace_only (py " Hopeful")
  ∧ ∃ pre m k r s,
      [EvPost (py "m1") 0 (http 200 (chat_completion " Stay steady, Amina. "))]
      = pre ++ [EvPost m k (Returns r)]
      ∧ json_body r ≫= response_content = Some s ∧ py "Stay steady, Amina." = strip s.
Proof.
  apply (affirmation_is_never_blank
           {| name := py "Amina"; feeling := py " Hopeful"; details := None |}
           9 false (env_of "m1" "m2")
           (λ _ _, http 200 (chat_completion " Stay steady, Amina. "))
           (py "Stay steady, Amina.")
           (Some (user_payload (py "Amina") (py "Hopeful") [] (py "morning")))
           [EvPost (py "m1") 0 (http 200 (chat_completion " Stay steady, Amina. "))]).
  by vm_compute.
Defined.

(** X15. For a request within the field lengths of [RequestData] (60, 160
    and 320), the user message passed on has between 49 and 589 code
    points, and it is built from the trimmed fields and the time of day. *)
Theorem user_payload_is_bounded
    (data : RequestData) (hour : nat) (debug : bool) (env : environ) (net : network)
    (sent : str) :
  validated data →
  (generate_affirmation data hour debug env net).1.2 = Some sent →
  sent = user_payload (strip (name data)) (strip (feeling data))
           (strip (default [] (details data))) (time_of_day hour)
  ∧ 49 ≤ length sent ≤ 589.
Proof.
  intros (Hn & Hf & Hd). unfold generate_affirmation. cbv zeta.
  destruct (negb (str_bool (strip (name data))) || negb (str_bool (strip (feeling data))))
    eqn:Htest; [done|].
  apply orb_false_iff in Htest as [Hname Hfeeling].
  apply negb_false_iff in Hname, Hfeeling.
  intros Hsent.
  assert (sent = user_payload (strip (name data)) (strip (feeling data))
                   (strip (default [] (details data))) (time_of_day hour)) as ->.
  { destruct (outcome (_generate_affirmation env net)) as [t|e|];
      [| destruct (is_TimeoutError e) |]; simpl in Hsent; congruence. }
  split; [done|]. rewrite user_payload_length.
  pose proof (strip_length (name data)). pose proof (strip_length (feeling data)).
  pose proof (strip_length (default [] (details data))).
  pose proof (time_of_day_length hour).
  destruct (strip (name data)); [done|]. destruct (strip (feeling data)); [done|].
  simpl length in *. lia.
Qed.

Lemma user_payload_is_bounded_example :
  user_payload (py "Amina") (py "Hopeful") (py "Starting fresh") (py "evening")
  = user_payload (strip (py " Amina ")) (strip (py "Hopeful"))
      (strip (default [] (Some (py "Starting fresh")))) (time_of_day 21)
  ∧ 49 ≤ length (user_payload (py "Amina") (py "Hopeful") (py "Starting fresh")
                   (py "evening")) ≤ 589.
Proof.
  apply (user_payload_is_bounded
           {| name := py " Amina "; feeling := py "Hopeful";
              details := Some (py "Starting fresh") |}
           21 false (env_of "m1" "m2") (λ _ _, Raises Timeout)).
  - unfold validated. simpl. lia.
  - by vm_compute.
Defined.

(** X16. The caller reads only the [error] field and the first element of
    [choices]: two decoded bodies that agree on [error] and [choices] give
    the same result, and dropping the elements of [choices] after the first
    one changes nothing. *)
Theorem parse_result_reads_error_and_first_choice :
  (∀ d d' : gmap str json,
     d !! py "error" = d' !! py "error" → d !! py "choices" = d' !! py "choices" →
     parse_result (JDict d) = parse_result (JDict d'))
  ∧ (∀ (d : gmap str json) first rest,
       d !! py "choices" = Some (JList (first :: rest)) →
       parse_result (JDict d)
       = parse_result (JDict (<[py "choices" := JList [first]]> d))).
Proof.
  split.
  - intros d d' Herr Hc.
    unfold parse_result, py_get, py_getitem, py_or, mbind, exc_bind.
    simpl is_dict. cbv iota beta. by rewrite Herr, Hc.
  - intros d first rest Hc.
    unfold parse_result, py_get, py_getitem, py_or, mbind, exc_bind.
    simpl is_dict. cbv iota beta.
    rewrite lookup_insert_eq, lookup_insert_ne by (by vm_compute).
    by rewrite Hc.
Qed.

Lemma parse_result_reads_first_choice_example :
  parse_result
    (JDict {[ py "id" := JStr (py "cmpl-1");
              py "choices" :=
                JList [JDict {[ py "message" := JDict {[ py "content" := JStr (py "one") ]} ]};
                       JDict {[ py "message" := JDict {[ py "content" := JStr (py "two") ]} ]}] ]})
  = parse_result
      (JDict (<[py "choices" :=
                  JList [JDict {[ py "message" := JDict {[ py "content" := JStr (py "one") ]} ]}]]>
                {[ py "id" := JStr (py "cmpl-1");
                   py "choices" :=
                     JList [JDict {[ py "message" := JDict {[ py "content" := JStr (py "one") ]} ]};
                            JDict {[ py "message" := JDict {[ py "content" := JStr (py "two") ]} ]}] ]})).
Proof.
  apply (proj2 parse_result_reads_error_and_first_choice _
           (JDict {[ py "message" := JDict {[ py "content" := JStr (py "one") ]} ]})
           [JDict {[ py "message" := JDict {[ py "content" := JStr (py "two") ]} ]}]).
  by vm_compute.
Defined.
